(** * AbstractBitConfig: a shallow embedding of
      [src/consumer/bit-config/abstract-bit-config.js]

    The configuration model of the workspace and of a component: environment
    normalisation ([transformEnvToObject], the [compiler]/[tester] accessors),
    the queries ([hasCompiler], [getEnvsByType]), the environment loader
    ([loadEnv], [loadCompiler], [loadTester]), the canonical plain form
    ([getBackwardCompatibleEnv], [toPlainObject]) and the writer
    ([prepareToWrite], [write], [removeIfExist]).

    JavaScript values are a first-order datatype, objects are association
    lists in [Object.keys] order, exceptions are an explicit completion, and
    the asynchronous methods run in a state-and-exception monad over the file
    system, the logging sink and the record of plugin-factory calls. *)

From Stdlib Require Import DecimalString.
From stdpp Require Import gmap strings list.

Local Open Scope string_scope.
Local Open Scope list_scope.
Set Warnings "-register-all".

(** ** JavaScript values *)

(** The values that configuration data is made of.  [VObj] lists the own
    enumerable properties of a plain object in the order [Object.keys] reports
    them; numbers are restricted to integers (nothing below computes with
    them, they are only tested for truthiness and compared). *)
Inductive JsVal : Type :=
| VUndefined
| VNull
| VBool (b : bool)
| VNum (n : Z)
| VStr (s : string)
| VArr (l : list JsVal)
| VObj (kvs : list (string * JsVal)).

Abbreviation Props := (list (string * JsVal)).

(** [!!v] *)
Definition truthy (v : JsVal) : bool :=
  match v with
  | VUndefined | VNull => false
  | VBool b => b
  | VNum n => negb (Z.eqb n 0)
  | VStr s => negb (String.eqb s "")
  | VArr _ | VObj _ => true
  end.

(** [a || b] *)
Definition js_or (a b : JsVal) : JsVal := if truthy a then a else b.

(** [v === s] for a string constant [s]: only a string with the same
    characters is strictly equal to it. *)
Definition strict_eq_str (v : JsVal) (s : string) : bool :=
  match v with
  | VStr t => String.eqb t s
  | _ => false
  end.

(** [typeof v === 'string'] *)
Definition is_string (v : JsVal) : bool :=
  match v with VStr _ => true | _ => false end.

(** First binding of a key in a property list. *)
Fixpoint assoc (k : string) (kvs : Props) : option JsVal :=
  match kvs with
  | [] => None
  | (k', v) :: rest => if String.eqb k' k then Some v else assoc k rest
  end.

(** [o.k] on a plain object given by its property list: [undefined] when the
    key is missing.  It is only used at names that [Object.prototype] does
    not define. *)
Definition obj_get (kvs : Props) (k : string) : JsVal :=
  match assoc k kvs with Some v => v | None => VUndefined end.

(** The array index a property name spells, if it spells one: a decimal
    numeral in canonical form (no sign, no leading zero) below [2^32 - 1]. *)
Definition array_index (k : string) : option N :=
  match NilEmpty.uint_of_string k with
  | Some d =>
      let n := N.of_uint d in
      if String.eqb (NilEmpty.string_of_uint (N.to_uint n)) k
         && (n <? 4294967295)%N
      then Some n else None
  | None => None
  end.

(** A new value for a key that is there: the key keeps its place. *)
Fixpoint obj_replace (kvs : Props) (k : string) (v : JsVal) : Props :=
  match kvs with
  | [] => []
  | (k', v') :: rest =>
      if String.eqb k' k then (k', v) :: rest
      else (k', v') :: obj_replace rest k v
  end.

(** A new key that is the array index [n]: it goes after the indices below
    it, before everything else. *)
Fixpoint obj_add_index (kvs : Props) (n : N) (k : string) (v : JsVal) : Props :=
  match kvs with
  | [] => [(k, v)]
  | (k', v') :: rest =>
      match array_index k' with
      | Some n' =>
          if (n' <? n)%N then (k', v') :: obj_add_index rest n k v
          else (k, v) :: kvs
      | None => (k, v) :: kvs
      end
  end.

(** [o[k] = v] on a property list, when the assignment defines or updates
    an own property: an existing key keeps its place; a new key that is an
    array index is put among the indices, in ascending order; any other new
    key comes last.  This is the order in which [Object.keys] lists the
    properties. *)
Definition obj_set (kvs : Props) (k : string) (v : JsVal) : Props :=
  match assoc k kvs with
  | Some _ => obj_replace kvs k v
  | None =>
      match array_index k with
      | Some n => obj_add_index kvs n k v
      | None => kvs ++ [(k, v)]
      end
  end.

(** The decimal name of an array index. *)
Definition index_key (i : nat) : string :=
  NilEmpty.string_of_uint (Nat.to_uint i).

(** The indexed properties of an array and of a string. *)
Definition arr_entries (l : list JsVal) : Props :=
  imap (fun i x => (index_key i, x)) l.

Fixpoint string_chars (s : string) : list JsVal :=
  match s with
  | EmptyString => []
  | String c rest => VStr (String c EmptyString) :: string_chars rest
  end.

(** The own enumerable string-keyed properties of a value (what
    [Object.keys] and [Object.assign] enumerate); primitives other than
    strings have none. *)
Definition own_enumerable (v : JsVal) : Props :=
  match v with
  | VObj kvs => kvs
  | VArr l => arr_entries l
  | VStr s => arr_entries (string_chars s)
  | _ => []
  end.

(** ** Exceptions *)

Inductive JsError : Type :=
| TypeError (msg : string)
| ErrnoError (code : string) (file : string)
| Thrown (v : JsVal).

Inductive Completion (A : Type) : Type :=
| Normal (a : A)
| Throw (e : JsError).
Arguments Normal {A} a.
Arguments Throw {A} e.

Definition cbind {A B} (c : Completion A) (k : A -> Completion B) : Completion B :=
  match c with
  | Normal a => k a
  | Throw e => Throw e
  end.

Declare Scope completion_scope.
Delimit Scope completion_scope with C.
Notation "'let*' x ':=' c 'in' k" := (cbind c (fun x => k))
  (at level 10, x name, c at level 100, k at level 200) : completion_scope.

(** [v.k]: a [TypeError] on [undefined] and [null], otherwise the own
    property or [undefined]. *)
Definition get_prop (v : JsVal) (k : string) : Completion JsVal :=
  match v with
  | VUndefined => Throw (TypeError ("Cannot read property of undefined: " +:+ k))
  | VNull => Throw (TypeError ("Cannot read property of null: " +:+ k))
  | VObj kvs => Normal (obj_get kvs k)
  | VArr l =>
      if String.eqb k "length" then Normal (VNum (Z.of_nat (length l)))
      else Normal (obj_get (arr_entries l) k)
  | VStr s =>
      if String.eqb k "length" then Normal (VNum (Z.of_nat (String.length s)))
      else Normal (obj_get (arr_entries (string_chars s)) k)
  | VBool _ | VNum _ => Normal VUndefined
  end.

(** [Object.keys(v)] *)
Definition Object_keys (v : JsVal) : Completion (list string) :=
  match v with
  | VUndefined | VNull =>
      Throw (TypeError "Cannot convert undefined or null to object")
  | _ => Normal (map fst (own_enumerable v))
  end.

(** [keys[0]]: the first key, or [undefined] for an empty array of keys. *)
Definition first_key (keys : list string) : JsVal :=
  match keys with
  | k :: _ => VStr k
  | [] => VUndefined
  end.

(** [v[key]] where [key] is an element of an array of keys or [undefined];
    [undefined] is converted to the property name ["undefined"]. *)
Definition get_member (v key : JsVal) : Completion JsVal :=
  match key with
  | VStr k => get_prop v k
  | _ => get_prop v "undefined"
  end.

(** [o.k = x] in strict-mode code: a [TypeError] on anything that is not an
    object.  A named property put on an array is not an indexed element. *)
Definition set_prop (o : JsVal) (k : string) (x : JsVal) : Completion JsVal :=
  match o with
  | VObj kvs => Normal (VObj (obj_set kvs k x))
  | VArr l => Normal (VArr l)
  | _ => Throw (TypeError ("Cannot create property " +:+ k))
  end.

(** ** Ramda *)

(** [R.equals]: same type, and for arrays the same elements in order, for
    objects the same number of keys with every key of the first present in
    the second with an equal value.  (Ramda makes the nested comparison with
    its arguments exchanged, [_equals(b[key], a[key])]; the recursion here is
    on the first argument.) *)
Fixpoint R_equals (a b : JsVal) {struct a} : bool :=
  match a, b with
  | VUndefined, VUndefined => true
  | VNull, VNull => true
  | VBool x, VBool y => Bool.eqb x y
  | VNum x, VNum y => Z.eqb x y
  | VStr x, VStr y => String.eqb x y
  | VArr xs, VArr ys =>
      (fix all2 (xs ys : list JsVal) : bool :=
         match xs, ys with
         | [], [] => true
         | x :: xs', y :: ys' => R_equals x y && all2 xs' ys'
         | _, _ => false
         end) xs ys
  | VObj xs, VObj ys =>
      Nat.eqb (length xs) (length ys) &&
      (fix each (xs : Props) : bool :=
         match xs with
         | [] => true
         | (k, v) :: xs' =>
             match assoc k ys with
             | Some w => R_equals v w
             | None => false
             end && each xs'
         end) xs
  | _, _ => false
  end.

(** [R.isEmpty]: true of [{}], [[]] and [''] only. *)
Definition R_isEmpty (v : JsVal) : bool :=
  match v with
  | VObj [] | VArr [] | VStr "" => true
  | _ => false
  end.

(** [RA.isNilOrEmpty] *)
Definition RA_isNilOrEmpty (v : JsVal) : bool :=
  match v with
  | VUndefined | VNull => true
  | _ => R_isEmpty v
  end.

(** The prototype of the object [Object.assign] is filling.  A value of
    [JsVal] stands for an object with the prototype of its kind; the target
    of an assignment starts that way and may have its prototype changed by
    an assignment to [__proto__]. *)
Inductive Prototype : Type :=
| ObjectPrototype
| NullPrototype
| ValuePrototype (v : JsVal).

(** Whether an assignment to [__proto__], on an object with no own property
    of that name, arrives at the accessor of [Object.prototype]: not when the
    prototype chain is cut by [null], nor when the prototype has a data
    property of that name itself. *)
Definition reaches_proto_setter (p : Prototype) : bool :=
  match p with
  | ObjectPrototype => true
  | NullPrototype => false
  | ValuePrototype (VObj kvs) =>
      match assoc "__proto__" kvs with Some _ => false | None => true end
  | ValuePrototype _ => true
  end.

(** The accessor: an object or [null] becomes the prototype, any other value
    is ignored. *)
Definition proto_set (p : Prototype) (v : JsVal) : Prototype :=
  match v with
  | VObj _ | VArr _ => ValuePrototype v
  | VNull => NullPrototype
  | _ => p
  end.

(** [target[k] = v] as [Object.assign] performs it, on a target given by its
    own properties and its prototype.  Every name but [__proto__] defines or
    updates an own property; [__proto__] does so only when the target has the
    own property already or the accessor is out of reach, and otherwise sets
    the prototype and leaves the own properties alone. *)
Definition assign_property (target : Props * Prototype) (k : string) (v : JsVal)
  : Props * Prototype :=
  if String.eqb k "__proto__" then
    match assoc k (fst target) with
    | Some _ => (obj_set (fst target) k v, snd target)
    | None =>
        if reaches_proto_setter (snd target)
        then (fst target, proto_set (snd target) v)
        else (obj_set (fst target) k v, snd target)
    end
  else (obj_set (fst target) k v, snd target).

(** [Object.assign(target, ...sources)] on a plain [target], by the own
    properties of the result, in the order [Object.keys] lists them.  The
    prototype the result ends with is not part of it: the class hands a merged
    mapping only to code that looks at own properties. *)
Definition Object_assign (target : Props) (sources : list JsVal) : Props :=
  fst (fold_left
         (fun acc src =>
            fold_left (fun acc' kv => assign_property acc' (fst kv) (snd kv))
                      (own_enumerable src) acc)
         sources (target, ObjectPrototype)).

(** [R.merge(l, r)] is [Object.assign({}, l, r)], [R.mergeAll(list)] is
    [Object.assign({}, ...list)]. *)
Definition R_merge (l r : JsVal) : JsVal := VObj (Object_assign [] [l; r]).
Definition R_mergeAll (l : list JsVal) : JsVal := VObj (Object_assign [] l).

(** ** Imported constants and collaborators *)

(** The values exported by [../../constants].  That module is not among the
    sources at hand, so the development is parametric in them. *)
Class Constants : Type := {
  BIT_JSON : string;
  NO_PLUGIN_TYPE : string;
  COMPILER_ENV_TYPE : string;
  TESTER_ENV_TYPE : string;
  DEFAULT_LANGUAGE : string;
  DEFAULT_BINDINGS_PREFIX : string;
  DEFAULT_EXTENSIONS : JsVal;
  PACKAGE_JSON : string
}.

(** Modelled from the spec: [BitId] of [../../bit-id] is not among the
    sources at hand.  A component id is an opaque value "convertible to a flat
    object [{key: versionOrSpec}]"; the class uses it through [toObject()]
    only, so an id is given by the object it converts to. *)
Record BitId : Type := { toObject : JsVal }.

(** ** The configuration model *)

(** The instance fields of [AbstractBitConfig].  A field the class only
    declares with a type holds [undefined] until something assigns it. *)
Record AbstractBitConfig : Type := {
  path : JsVal;
  _compiler : JsVal;
  _tester : JsVal;
  dependencies : JsVal;
  devDependencies : JsVal;
  compilerDependencies : JsVal;
  testerDependencies : JsVal;
  lang : JsVal;
  bindingPrefix : JsVal;
  extensions : JsVal;
  writeToPackageJson : bool;
  writeToBitJson : bool
}.

Definition with_compiler (m : AbstractBitConfig) (v : JsVal) : AbstractBitConfig :=
  {| path := path m; _compiler := v; _tester := _tester m;
     dependencies := dependencies m; devDependencies := devDependencies m;
     compilerDependencies := compilerDependencies m;
     testerDependencies := testerDependencies m;
     lang := lang m; bindingPrefix := bindingPrefix m;
     extensions := extensions m;
     writeToPackageJson := writeToPackageJson m;
     writeToBitJson := writeToBitJson m |}.

Definition with_tester (m : AbstractBitConfig) (v : JsVal) : AbstractBitConfig :=
  {| path := path m; _compiler := _compiler m; _tester := v;
     dependencies := dependencies m; devDependencies := devDependencies m;
     compilerDependencies := compilerDependencies m;
     testerDependencies := testerDependencies m;
     lang := lang m; bindingPrefix := bindingPrefix m;
     extensions := extensions m;
     writeToPackageJson := writeToPackageJson m;
     writeToBitJson := writeToBitJson m |}.

Definition with_dependencies (m : AbstractBitConfig) (v : JsVal) : AbstractBitConfig :=
  {| path := path m; _compiler := _compiler m; _tester := _tester m;
     dependencies := v; devDependencies := devDependencies m;
     compilerDependencies := compilerDependencies m;
     testerDependencies := testerDependencies m;
     lang := lang m; bindingPrefix := bindingPrefix m;
     extensions := extensions m;
     writeToPackageJson := writeToPackageJson m;
     writeToBitJson := writeToBitJson m |}.

Section Model.
Context {K : Constants}.

(** [transformEnvToObject] *)
Definition transformEnvToObject (env : JsVal) : JsVal :=
  match env with
  | VStr s =>
      if String.eqb s NO_PLUGIN_TYPE then VObj []
      else VObj [(s, VObj [])]
  | _ => env
  end.

(** [constructor(props)] *)
Definition constructor (props : Props) : AbstractBitConfig :=
  {| path := VUndefined;
     _compiler := js_or (obj_get props "compiler") (VObj []);
     _tester := js_or (obj_get props "tester") (VObj []);
     dependencies := VUndefined;
     devDependencies := VUndefined;
     compilerDependencies := VUndefined;
     testerDependencies := VUndefined;
     lang := js_or (obj_get props "lang") (VStr DEFAULT_LANGUAGE);
     bindingPrefix :=
       js_or (obj_get props "bindingPrefix") (VStr DEFAULT_BINDINGS_PREFIX);
     extensions := js_or (obj_get props "extensions") DEFAULT_EXTENSIONS;
     writeToPackageJson := false;
     writeToBitJson := false |}.

(** [get compiler()] *)
Definition get_compiler (m : AbstractBitConfig) : JsVal :=
  let compilerObj := transformEnvToObject (_compiler m) in
  if R_isEmpty compilerObj then VUndefined else compilerObj.

(** [set compiler(compiler)] *)
Definition set_compiler (m : AbstractBitConfig) (compiler : JsVal) : AbstractBitConfig :=
  with_compiler m (transformEnvToObject compiler).

(** [get tester()] *)
Definition get_tester (m : AbstractBitConfig) : JsVal :=
  let testerObj := transformEnvToObject (_tester m) in
  if R_isEmpty testerObj then VUndefined else testerObj.

(** [set tester(tester)] *)
Definition set_tester (m : AbstractBitConfig) (tester : JsVal) : AbstractBitConfig :=
  with_tester m (transformEnvToObject tester).

(** [addDependencies(bitIds)] *)
Definition addDependencies (m : AbstractBitConfig) (bitIds : list BitId) : AbstractBitConfig :=
  let idObjects := R_mergeAll (map toObject bitIds) in
  with_dependencies m (R_merge (dependencies m) idObjects).

(** [addDependency(bitId)] *)
Definition addDependency (m : AbstractBitConfig) (bitId : BitId) : AbstractBitConfig :=
  with_dependencies m (R_merge (dependencies m) (toObject bitId)).

(** [hasCompiler()] *)
Definition hasCompiler (m : AbstractBitConfig) : bool :=
  truthy (get_compiler m)
  && negb (strict_eq_str (_compiler m) NO_PLUGIN_TYPE)
  && negb (R_isEmpty (get_compiler m)).

(** [hasTester()] *)
Definition hasTester (m : AbstractBitConfig) : bool :=
  truthy (get_tester m)
  && negb (strict_eq_str (_tester m) NO_PLUGIN_TYPE)
  && negb (R_isEmpty (get_tester m)).

(** [getEnvsByType(type)] *)
Definition getEnvsByType (m : AbstractBitConfig) (type : JsVal) : JsVal :=
  if strict_eq_str type COMPILER_ENV_TYPE then get_compiler m
  else get_tester m.

Local Open Scope completion_scope.

(** [getBackwardCompatibleEnv(type)] *)
Definition getBackwardCompatibleEnv (m : AbstractBitConfig) (type : JsVal)
  : Completion JsVal :=
  let envObj := getEnvsByType m type in
  if negb (truthy envObj) then Normal VUndefined else
  let* keys := Object_keys envObj in
  if negb (Nat.eqb (length keys) 1) then Normal envObj else
  let* keys' := Object_keys envObj in
  let envId := first_key keys' in
  let* entry := get_member envObj envId in
  let* rawConfig := get_prop entry "rawConfig" in
  if RA_isNilOrEmpty rawConfig then
    let* entry := get_member envObj envId in
    let* options := get_prop entry "options" in
    if RA_isNilOrEmpty options then
      let* entry := get_member envObj envId in
      let* files := get_prop entry "files" in
      if RA_isNilOrEmpty files then Normal envId else Normal envObj
    else Normal envObj
  else Normal envObj.

(** The predicate [toPlainObject] hands to [filterObject]: despite its name
    it answers [true] for the properties to keep. *)
Definition isPropDefaultOrNull (val : JsVal) (key : string) : bool :=
  if negb (truthy val) then false
  else if String.eqb key "lang" then negb (strict_eq_str val DEFAULT_LANGUAGE)
  else if String.eqb key "bindingPrefix"
       then negb (strict_eq_str val DEFAULT_BINDINGS_PREFIX)
  else if String.eqb key "extensions"
       then negb (R_equals val DEFAULT_EXTENSIONS)
  else true.

(** Modelled from the spec: [filterObject] of [../../utils] is not among the
    sources at hand.  The canonicalizer "filters out" the top-level keys the
    predicate rejects and "all other present, truthy keys are kept": the
    result holds, in order, the properties for which [fn(val, key)] is true. *)
Definition filterObject (obj : Props) (fn : JsVal -> string -> bool) : JsVal :=
  VObj (List.filter (fun kv => fn (snd kv) (fst kv)) obj).

(** The object literal [toPlainObject] builds before filtering. *)
Definition plainCandidate (m : AbstractBitConfig) (compiler tester : JsVal) : Props :=
  [ ("lang", lang m);
    ("bindingPrefix", bindingPrefix m);
    ("env", VObj [("compiler", compiler); ("tester", tester)]);
    ("dependencies", dependencies m);
    ("extensions", extensions m) ].

(** [toPlainObject()] *)
Definition toPlainObject (m : AbstractBitConfig) : Completion JsVal :=
  let* compiler := getBackwardCompatibleEnv m (VStr COMPILER_ENV_TYPE) in
  let* tester := getBackwardCompatibleEnv m (VStr TESTER_ENV_TYPE) in
  Normal (filterObject (plainCandidate m compiler tester) isPropDefaultOrNull).

(** [getEnvsProps] *)
Definition getEnvsProps (consumerPath scopePath envName envObject bitJsonPath
                         envType context : JsVal) : Completion JsVal :=
  let* rawConfig := get_prop envObject "rawConfig" in
  let* files := get_prop envObject "files" in
  let* options := get_prop envObject "options" in
  Normal (VObj [ ("name", envName);
                 ("consumerPath", consumerPath);
                 ("scopePath", scopePath);
                 ("rawConfig", rawConfig);
                 ("files", files);
                 ("bitJsonPath", bitJsonPath);
                 ("options", options);
                 ("envType", envType);
                 ("context", context) ]).

End Model.

(** ** The world of the asynchronous methods *)

(** What the asynchronous methods act on: the JSON files on disk by path,
    the messages received by the logging sink (oldest first), and the
    property bags received by plugin factories that record them. *)
Record World : Type := {
  fs_files : gmap string JsVal;
  logged : list string;
  factory_calls : list JsVal
}.

(** An [async] method: run from a world, it ends in a world and either a value
    (the promise is fulfilled) or an exception (it is rejected).  [await] is
    sequencing. *)
Definition M (A : Type) : Type := World -> World * Completion A.

Definition ret {A} (a : A) : M A := fun w => (w, Normal a).

Definition throw {A} (e : JsError) : M A := fun w => (w, Throw e).

Definition bind {A B} (c : M A) (k : A -> M B) : M B :=
  fun w =>
    match c w with
    | (w', Normal a) => k a w'
    | (w', Throw e) => (w', Throw e)
    end.

(** A synchronous computation inside an [async] method. *)
Definition lift {A} (c : Completion A) : M A := fun w => (w, c).

Declare Scope async_scope.
Delimit Scope async_scope with async.
Notation "'let*' x ':=' c 'in' k" := (bind c (fun x => k))
  (at level 10, x name, c at level 100, k at level 200) : async_scope.

(** [Promise.all] over promises started in list order: every one of them
    runs, and the result is rejected with the first failure if there is one. *)
Fixpoint Promise_all {A} (ps : list (M A)) : M (list A) :=
  fun w =>
    match ps with
    | [] => (w, Normal [])
    | p :: rest =>
        let (w1, r1) := p w in
        let (w2, r2) := Promise_all rest w1 in
        (w2, match r1, r2 with
             | Normal a, Normal l => Normal (a :: l)
             | Throw e, _ => Throw e
             | Normal _, Throw e => Throw e
             end)
    end.

(** *** fs-extra *)

(** [fs.readJson(p)]: the parsed content, or an [ENOENT] error when there is
    no file at [p]. *)
Definition fs_readJson (p : string) : M JsVal :=
  fun w =>
    match fs_files w !! p with
    | Some v => (w, Normal v)
    | None => (w, Throw (ErrnoError "ENOENT" p))
    end.

(** [fs.exists(p)] returns a promise of a boolean. *)
Definition fs_exists (p : string) : M bool :=
  fun w => (w, Normal (bool_decide (is_Some (fs_files w !! p)))).

(** A promise that is tested without being awaited is an object, hence
    truthy, whatever it will resolve to. *)
Definition promise_truthy {A} (p : M A) : bool := true.

(** [fs.remove(p)]: nothing is left at [p], and a missing [p] is not an
    error; the promise resolves to [undefined]. *)
Definition fs_remove (p : string) : M JsVal :=
  fun w =>
    ({| fs_files := delete p (fs_files w);
        logged := logged w;
        factory_calls := factory_calls w |}, Normal VUndefined).

(** Modelled from the spec: the logger of [../../logger/logger] is not among
    the sources at hand.  It is a "single-method info call, fire-and-forget,
    no return value consumed": the sink receives the message. *)
Definition logger_info (msg : string) : M unit :=
  fun w =>
    ({| fs_files := fs_files w;
        logged := logged w ++ [msg];
        factory_calls := factory_calls w |}, Normal tt).

(** *** JSONFile *)

(** The parameters [addJsonFile] passes to [JSONFile.load]. *)
Record JSONFile : Type := {
  jf_base : string;
  jf_override : bool;
  jf_path : string;
  jf_content : JsVal
}.

(** What a value is once written as JSON text and parsed again: a property
    whose value is [undefined] is left out, an [undefined] element of an array
    becomes [null], and [undefined] itself has no JSON text. *)
Fixpoint json_of (v : JsVal) : option JsVal :=
  match v with
  | VUndefined => None
  | VArr l =>
      Some (VArr ((fix elements (l : list JsVal) : list JsVal :=
                     match l with
                     | [] => []
                     | x :: l' =>
                         match json_of x with
                         | Some j => j
                         | None => VNull
                         end :: elements l'
                     end) l))
  | VObj kvs =>
      Some (VObj ((fix members (kvs : Props) : Props :=
                     match kvs with
                     | [] => []
                     | (k, x) :: kvs' =>
                         match json_of x with
                         | Some j => (k, j) :: members kvs'
                         | None => members kvs'
                         end
                     end) kvs))
  | _ => Some v
  end.

(** Modelled from the spec: [JSONFile] of [../component/sources/json-file] is
    not among the sources at hand.  The descriptor files are JSON, a staged
    file is written "with override semantics (create-or-replace)" and the
    write returns the path written: the file then holds the JSON form of the
    content.  A content without a JSON form is outside what the spec
    describes; the write is taken to fail then, with nothing written. *)
Definition JSONFile_write (f : JSONFile) : M JsVal :=
  fun w =>
    match json_of (jf_content f) with
    | Some json =>
        ({| fs_files := <[jf_path f := json]> (fs_files w);
            logged := logged w;
            factory_calls := factory_calls w |}, Normal (VStr (jf_path f)))
    | None => (w, Throw (TypeError "content has no JSON form"))
    end.

Section Async.
Context {K : Constants}.

(** [path.join] of Node. *)
Variable path_join : string -> string -> string.

(** [CompilerExtension.load] and [TesterExtension.load], the plugin
    factories of [../../extensions]. *)
Variable CompilerExtension_load : JsVal -> M JsVal.
Variable TesterExtension_load : JsVal -> M JsVal.

Local Open Scope async_scope.

(** [loadEnv(envType, consumerPath, scopePath, loadFunc, context)] *)
Definition loadEnv (m : AbstractBitConfig) (envType consumerPath scopePath : JsVal)
    (loadFunc : JsVal -> M JsVal) (context : JsVal) : M JsVal :=
  let envs := getEnvsByType m envType in
  if negb (truthy envs) then ret VUndefined else
  let* keys := lift (Object_keys envs) in
  let envName := first_key keys in
  let* envObject := lift (get_member envs envName) in
  let* envProps :=
    lift (getEnvsProps consumerPath scopePath envName envObject (path m)
                       envType context) in
  let* env := loadFunc envProps in
  ret env.

(** [loadCompiler(consumerPath, scopePath, context)] *)
Definition loadCompiler (m : AbstractBitConfig) (consumerPath scopePath context : JsVal)
  : M JsVal :=
  if negb (hasCompiler m) then ret VNull else
  let compilerP :=
    loadEnv m (VStr COMPILER_ENV_TYPE) consumerPath scopePath
            CompilerExtension_load context in
  let* compiler := compilerP in
  ret compiler.

(** [loadTester(consumerPath, scopePath, context)] *)
Definition loadTester (m : AbstractBitConfig) (consumerPath scopePath context : JsVal)
  : M JsVal :=
  if negb (hasTester m) then ret VNull else
  let testerP :=
    loadEnv m (VStr TESTER_ENV_TYPE) consumerPath scopePath
            TesterExtension_load context in
  let* tester := testerP in
  ret tester.

(** [composeBitJsonPath], [composePackageJsonPath] *)
Definition composeBitJsonPath (bitPath : string) : string :=
  path_join bitPath BIT_JSON.

Definition composePackageJsonPath (bitPath : string) : string :=
  path_join bitPath PACKAGE_JSON.

(** The local [addJsonFile] of [prepareToWrite]: the file it pushes. *)
Definition addJsonFile (bitDir pathStr : string) (content : JsVal) : JSONFile :=
  {| jf_base := bitDir; jf_override := true;
     jf_path := pathStr; jf_content := content |}.

(** [prepareToWrite({ bitDir })] *)
Definition prepareToWrite (m : AbstractBitConfig) (bitDir : string) : M (list JSONFile) :=
  let* plainObject := lift (toPlainObject m) in
  let JsonFiles := [] in
  let* JsonFiles :=
    if writeToPackageJson m then
      let packageJsonPath := composePackageJsonPath bitDir in
      let* packageJsonFile := fs_readJson packageJsonPath in
      let* packageJsonFile := lift (set_prop packageJsonFile "bit" plainObject) in
      ret (JsonFiles ++ [addJsonFile bitDir packageJsonPath packageJsonFile])
    else ret JsonFiles in
  let* JsonFiles :=
    if writeToBitJson m then
      let bitJsonPath := composeBitJsonPath bitDir in
      ret (JsonFiles ++ [addJsonFile bitDir bitJsonPath plainObject])
    else ret JsonFiles in
  ret JsonFiles.

(** [write({ bitDir })] *)
Definition write (m : AbstractBitConfig) (bitDir : string) : M (list JsVal) :=
  let* jsonFiles := prepareToWrite m bitDir in
  Promise_all (map JSONFile_write jsonFiles).

(** [pathHasBitJson], [pathHasPackageJson] *)
Definition pathHasBitJson (bitPath : string) : M bool :=
  fs_exists (composeBitJsonPath bitPath).

Definition pathHasPackageJson (bitPath : string) : M bool :=
  fs_exists (composePackageJsonPath bitPath).

(** [removeIfExist(bitPath)].  The condition is the promise [fs.exists]
    returns, not its awaited value. *)
Definition removeIfExist (bitPath : string) : M JsVal :=
  let dirToRemove := composeBitJsonPath bitPath in
  if promise_truthy (fs_exists dirToRemove) then
    let* _ := logger_info ("abstract-bit-config, deleting " +:+ dirToRemove) in
    fs_remove dirToRemove
  else ret (VBool false).

End Async.

(** ** Concrete instances *)

(** Modelled from the spec: the values of [../../constants].  The
    specification names the default language ["javascript"] and the default
    binding prefix ["@bit"]; the file names, the two environment kinds, the
    no-plugin sentinel and the empty default extension set are given their
    plain names. *)
Definition bit_constants : Constants :=
  {| BIT_JSON := "bit.json";
     NO_PLUGIN_TYPE := "none";
     COMPILER_ENV_TYPE := "compiler";
     TESTER_ENV_TYPE := "tester";
     DEFAULT_LANGUAGE := "javascript";
     DEFAULT_BINDINGS_PREFIX := "@bit";
     DEFAULT_EXTENSIONS := VObj [];
     PACKAGE_JSON := "package.json" |}.

(** [path.join] on two segments that need no normalisation. *)
Definition join_segments (dir file : string) : string := dir +:+ "/" +:+ file.

(** A plugin factory that records the property bag it receives and resolves
    to a fixed handle. *)
Definition spy_factory (handle : JsVal) : JsVal -> M JsVal :=
  fun bag w =>
    ({| fs_files := fs_files w;
        logged := logged w;
        factory_calls := factory_calls w ++ [bag] |}, Normal handle).

(** A world with no file, no message and no factory call. *)
Definition empty_world : World :=
  {| fs_files := ∅; logged := []; factory_calls := [] |}.

(** A world whose only file is the workspace descriptor [/ws/bit.json]. *)
Definition bit_json_world : World :=
  {| fs_files := {[ "/ws/bit.json" := VObj [("env", VObj [])] ]};
     logged := []; factory_calls := [] |}.

(** A world whose only file is the package descriptor [/ws/package.json]. *)
Definition package_json_world : World :=
  {| fs_files := {[ "/ws/package.json" := VObj [("name", VStr "app")] ]};
     logged := []; factory_calls := [] |}.

(** The persistence flags are set by the concrete subclasses. *)
Definition with_write_flags (m : AbstractBitConfig) (toPackageJson toBitJson : bool)
  : AbstractBitConfig :=
  {| path := path m; _compiler := _compiler m; _tester := _tester m;
     dependencies := dependencies m; devDependencies := devDependencies m;
     compilerDependencies := compilerDependencies m;
     testerDependencies := testerDependencies m;
     lang := lang m; bindingPrefix := bindingPrefix m;
     extensions := extensions m;
     writeToPackageJson := toPackageJson;
     writeToBitJson := toBitJson |}.

(** The declared type of the [_compiler] and [_tester] fields: a string, or
    an object whose entries are objects. *)
Definition env_typed (v : JsVal) : bool :=
  match v with
  | VStr _ => true
  | VObj kvs =>
      forallb (fun kv => match snd kv with VObj _ => true | _ => false end) kvs
  | _ => false
  end.

Section Canonical.
Context {K : Constants}.

(** What an accessor computes from the stored value. *)
Definition normalized_or_absent (stored : JsVal) : JsVal :=
  if R_isEmpty (transformEnvToObject stored) then VUndefined
  else transformEnvToObject stored.

(** A value equals the system default for its key: [lang] against the
    default language, [bindingPrefix] against the default prefix,
    [extensions] against the default extension set by deep equality. *)
Definition equals_system_default (key : string) (val : JsVal) : bool :=
  String.eqb key "lang" && strict_eq_str val DEFAULT_LANGUAGE
  || String.eqb key "bindingPrefix" && strict_eq_str val DEFAULT_BINDINGS_PREFIX
  || String.eqb key "extensions" && R_equals val DEFAULT_EXTENSIONS.

(** The property bag as the specification lists it. *)
Definition specPropertyBag (name consumerPath scopePath rawConfig files
                            configPath envType context : JsVal) : JsVal :=
  VObj [ ("name", name);
         ("consumerPath", consumerPath);
         ("scopePath", scopePath);
         ("rawConfig", rawConfig);
         ("files", files);
         ("configPath", configPath);
         ("envType", envType);
         ("context", context) ].

End Canonical.

(** ** Sample models *)

Definition with_path (m : AbstractBitConfig) (p : JsVal) : AbstractBitConfig :=
  {| path := p; _compiler := _compiler m; _tester := _tester m;
     dependencies := dependencies m; devDependencies := devDependencies m;
     compilerDependencies := compilerDependencies m;
     testerDependencies := testerDependencies m;
     lang := lang m; bindingPrefix := bindingPrefix m;
     extensions := extensions m;
     writeToPackageJson := writeToPackageJson m;
     writeToBitJson := writeToBitJson m |}.

(** [new AbstractBitConfig({ compiler: 'babel', tester: 'mocha' })] *)
Definition legacy_model : AbstractBitConfig :=
  @constructor bit_constants
    [("compiler", VStr "babel"); ("tester", VStr "mocha")].

(** A model with one structured compiler entry, at [/consumer/bit.json]. *)
Definition structured_model : AbstractBitConfig :=
  with_path
    (@constructor bit_constants
       [("compiler",
         VObj [("babel",
                VObj [("rawConfig", VObj [("presets", VArr [VStr "es2015"])]);
                      ("options", VObj []);
                      ("files", VArr [VStr ".babelrc"])])])])
    (VStr "/consumer/bit.json").

(** [new AbstractBitConfig({ lang: 'javascript', bindingPrefix: '@bit' })
      .addDependency(id)] where [id.toObject()] is [{'foo@1.0.0': '1.0.0'}]. *)
Definition dependencies_only_model : AbstractBitConfig :=
  addDependency
    (@constructor bit_constants
       [("lang", VStr "javascript"); ("bindingPrefix", VStr "@bit")])
    {| toObject := VObj [("foo@1.0.0", VStr "1.0.0")] |}.

(** ** Reading a descriptor back *)

(** [e.code] on a caught exception. *)
Definition error_code (e : JsError) : Completion JsVal :=
  match e with
  | TypeError _ => Normal VUndefined
  | ErrnoError code _ => Normal (VStr code)
  | Thrown v => get_prop v "code"
  end.

(** [try { ... } catch (e) { ... }] in an [async] method. *)
Definition try_catch {A} (body : M A) (handler : JsError -> M A) : M A :=
  fun w =>
    match body w with
    | (w', Normal a) => (w', Normal a)
    | (w', Throw e) => handler e w'
    end.

(** [loadJsonFileIfExist(jsonFilePath)], over the [readJson] it awaits. *)
Definition loadJsonFileIfExistWith (readJson : string -> M JsVal)
    (jsonFilePath : string) : M JsVal :=
  try_catch
    (bind (readJson jsonFilePath) (fun file => ret file))
    (fun e =>
       bind (lift (error_code e)) (fun code =>
       if strict_eq_str code "ENOENT" then ret VNull else throw e)).

(** [loadJsonFileIfExist(jsonFilePath)] *)
Definition loadJsonFileIfExist (jsonFilePath : string) : M JsVal :=
  loadJsonFileIfExistWith fs_readJson jsonFilePath.

(** ** Well-formed values *)

(** The keys of every object inside a value are pairwise distinct, as they
    are in any JavaScript object. *)
Fixpoint distinct_keys (v : JsVal) : bool :=
  match v with
  | VArr l =>
      (fix all (l : list JsVal) : bool :=
         match l with
         | [] => true
         | x :: l' => distinct_keys x && all l'
         end) l
  | VObj kvs =>
      bool_decide (NoDup (map fst kvs)) &&
      (fix all (kvs : Props) : bool :=
         match kvs with
         | [] => true
         | (_, x) :: kvs' => distinct_keys x && all kvs'
         end) kvs
  | _ => true
  end.

(** The order of two neighbouring property names of an object: an array
    index comes before a larger index and before any other name, and no other
    name comes before an index. *)
Definition key_before (k1 k2 : string) : bool :=
  match array_index k1, array_index k2 with
  | Some a, Some b => (a <? b)%N
  | Some _, None => true
  | None, Some _ => false
  | None, None => true
  end.

(** Names in the order [Object.keys] gives them: the array indices, ascending,
    then the other names. *)
Fixpoint keys_in_order (ks : list string) : bool :=
  match ks with
  | k1 :: rest =>
      match rest with
      | k2 :: _ => key_before k1 k2
      | [] => true
      end && keys_in_order rest
  | [] => true
  end.

(** A property list that is a plain mapping: distinct names, in property
    order, none of them [__proto__]. *)
Definition plain_mapping (kvs : Props) : bool :=
  bool_decide (NoDup (map fst kvs))
  && keys_in_order (map fst kvs)
  && match assoc "__proto__" kvs with Some _ => false | None => true end.

(** The entries of a property list other than [__proto__]. *)
Definition without_proto (kvs : Props) : Props :=
  List.filter (fun kv => negb (String.eqb (fst kv) "__proto__")) kvs.

(** The properties [Object.assign] copies from a list of sources, in the
    order it copies them. *)
Definition assigned (sources : list JsVal) : Props :=
  concat (map own_enumerable sources).

(** The properties of the [dependencies] field ([undefined] has none). *)
Definition dependency_entries (m : AbstractBitConfig) : Props :=
  own_enumerable (dependencies m).

(** * Properties *)

(** ** Values and property lists *)

Lemma strict_eq_str_true (v : JsVal) (s : string) :
  strict_eq_str v s = true <-> v = VStr s.
Proof.
  destruct v; simpl; try (split; [discriminate | intros H; discriminate H]).
  rewrite String.eqb_eq. split; [intros -> | intros [= ->]]; reflexivity.
Qed.

Lemma strict_eq_str_refl (s : string) : strict_eq_str (VStr s) s = true.
Proof. apply strict_eq_str_true. reflexivity. Qed.

Lemma assoc_app (k : string) (a b : Props) :
  assoc k (a ++ b)
  = match assoc k a with Some v => Some v | None => assoc k b end.
Proof.
  induction a as [|[k0 v0] a IH]; simpl; [reflexivity |].
  destruct (String.eqb k0 k); [reflexivity | exact IH].
Qed.

Lemma assoc_obj_replace_eq (kvs : Props) (k : string) (v x : JsVal) :
  assoc k kvs = Some x -> assoc k (obj_replace kvs k v) = Some v.
Proof.
  induction kvs as [|[k0 v0] kvs IH]; simpl; [discriminate |].
  destruct (String.eqb k0 k) eqn:Hk; simpl; rewrite Hk; [reflexivity | exact IH].
Qed.

Lemma assoc_obj_replace_ne (kvs : Props) (k k' : string) (v : JsVal) :
  k <> k' -> assoc k' (obj_replace kvs k v) = assoc k' kvs.
Proof.
  intros Hne. induction kvs as [|[k0 v0] kvs IH]; simpl; [reflexivity |].
  destruct (String.eqb_spec k0 k) as [->|Hk0]; simpl.
  - destruct (String.eqb_spec k k'); [contradiction | reflexivity].
  - destruct (String.eqb_spec k0 k'); [reflexivity | exact IH].
Qed.

Lemma assoc_obj_add_index (kvs : Props) (n : N) (k k' : string) (v : JsVal) :
  assoc k kvs = None ->
  assoc k' (obj_add_index kvs n k v)
  = if String.eqb k k' then Some v else assoc k' kvs.
Proof.
  induction kvs as [|[k0 v0] kvs IH]; simpl; intros Hnone; [reflexivity |].
  destruct (String.eqb_spec k0 k) as [->|Hk0]; [discriminate |].
  destruct (array_index k0) as [n0|]; [destruct (n0 <? n)%N |]; simpl;
    try reflexivity.
  rewrite (IH Hnone).
  destruct (String.eqb_spec k0 k') as [->|_]; [|reflexivity].
  destruct (String.eqb_spec k k'); [congruence | reflexivity].
Qed.

Lemma assoc_obj_set (kvs : Props) (k k' : string) (v : JsVal) :
  assoc k' (obj_set kvs k v)
  = if String.eqb k k' then Some v else assoc k' kvs.
Proof.
  unfold obj_set. destruct (assoc k kvs) as [x|] eqn:Hk.
  - destruct (String.eqb_spec k k') as [<-|Hne].
    + exact (assoc_obj_replace_eq _ _ _ _ Hk).
    + exact (assoc_obj_replace_ne _ _ _ _ Hne).
  - destruct (array_index k) as [n|].
    + exact (assoc_obj_add_index _ _ _ _ _ Hk).
    + rewrite assoc_app. simpl.
      destruct (String.eqb_spec k k') as [<-|Hne].
      * rewrite Hk. reflexivity.
      * destruct (assoc k' kvs); reflexivity.
Qed.

Lemma assoc_obj_set_eq (kvs : Props) (k : string) (v : JsVal) :
  assoc k (obj_set kvs k v) = Some v.
Proof. rewrite assoc_obj_set, String.eqb_refl. reflexivity. Qed.

Lemma assoc_obj_set_ne (kvs : Props) (k k' : string) (v : JsVal) :
  k <> k' -> assoc k' (obj_set kvs k v) = assoc k' kvs.
Proof.
  intros Hne. rewrite assoc_obj_set.
  destruct (String.eqb_spec k k'); [contradiction | reflexivity].
Qed.

Lemma obj_get_head (k : string) (v : JsVal) (rest : Props) :
  obj_get ((k, v) :: rest) k = v.
Proof. unfold obj_get. simpl. rewrite String.eqb_refl. reflexivity. Qed.

Lemma obj_get_set_ne (kvs : Props) (k k' : string) (v : JsVal) :
  k <> k' -> obj_get (obj_set kvs k v) k' = obj_get kvs k'.
Proof. intros Hne. unfold obj_get. rewrite assoc_obj_set_ne; auto. Qed.

(** ** Normalisation and the accessors *)

Lemma transformEnvToObject_sentinel {K : Constants} :
  transformEnvToObject (VStr NO_PLUGIN_TYPE) = VObj [].
Proof. simpl. rewrite String.eqb_refl. reflexivity. Qed.

Lemma transformEnvToObject_name {K : Constants} (s : string) :
  s <> NO_PLUGIN_TYPE ->
  transformEnvToObject (VStr s) = VObj [(s, VObj [])].
Proof.
  intros Hne. simpl.
  destruct (String.eqb_spec s NO_PLUGIN_TYPE); [contradiction | reflexivity].
Qed.

Lemma transformEnvToObject_not_string {K : Constants} (v : JsVal) :
  is_string (transformEnvToObject v) = false.
Proof.
  destruct v; simpl; try reflexivity.
  destruct (String.eqb s NO_PLUGIN_TYPE); reflexivity.
Qed.

Lemma get_compiler_unfold {K : Constants} (m : AbstractBitConfig) :
  get_compiler m = normalized_or_absent (_compiler m).
Proof. reflexivity. Qed.

Lemma get_tester_unfold {K : Constants} (m : AbstractBitConfig) :
  get_tester m = normalized_or_absent (_tester m).
Proof. reflexivity. Qed.

Lemma normalized_not_empty_object {K : Constants} (stored : JsVal) :
  normalized_or_absent stored <> VObj [].
Proof.
  unfold normalized_or_absent.
  destruct (R_isEmpty (transformEnvToObject stored)) eqn:He; [discriminate |].
  intros Heq. rewrite Heq in He. discriminate He.
Qed.

Lemma normalized_typed {K : Constants} (stored : JsVal) :
  env_typed stored = true ->
  normalized_or_absent stored = VUndefined \/
  exists name entry rest,
    normalized_or_absent stored = VObj ((name, entry) :: rest).
Proof.
  unfold normalized_or_absent.
  destruct stored as [| | | |s| |kvs]; simpl; try discriminate; intros _.
  - destruct (String.eqb s NO_PLUGIN_TYPE); simpl; [left; reflexivity |].
    right. exists s, (VObj []), []. reflexivity.
  - destruct kvs as [|[k e] rest]; [left; reflexivity |].
    right. exists k, e, rest. reflexivity.
Qed.

Lemma normalized_sentinel {K : Constants} :
  normalized_or_absent (VStr NO_PLUGIN_TYPE) = VUndefined.
Proof.
  unfold normalized_or_absent. rewrite transformEnvToObject_sentinel.
  reflexivity.
Qed.

(** C6 -- the sentinel law: normalising the no-plugin sentinel gives the
    empty environment set, and on every model whose stored compiler
    (respectively tester) is the sentinel, [hasCompiler()] (respectively
    [hasTester()]) evaluates to [false]. *)
Theorem sentinel_law {K : Constants} :
  transformEnvToObject (VStr NO_PLUGIN_TYPE) = VObj [] /\
  (forall m, _compiler m = VStr NO_PLUGIN_TYPE -> hasCompiler m = false) /\
  (forall m, _tester m = VStr NO_PLUGIN_TYPE -> hasTester m = false).
Proof.
  split; [apply transformEnvToObject_sentinel |].
  split; intros m Hm.
  - unfold hasCompiler. rewrite get_compiler_unfold, Hm, normalized_sentinel.
    reflexivity.
  - unfold hasTester. rewrite get_tester_unfold, Hm, normalized_sentinel.
    reflexivity.
Qed.

Lemma sentinel_law_witness :
  let m := @constructor bit_constants
             [("compiler", VStr "none"); ("tester", VStr "none")] in
  _compiler m = VStr "none" /\ _tester m = VStr "none" /\
  @hasCompiler bit_constants m = false /\ @hasTester bit_constants m = false.
Proof.
  intros m.
  destruct (@sentinel_law bit_constants) as [_ [Hc Ht]].
  split; [reflexivity |]. split; [reflexivity |].
  split; [apply Hc | apply Ht]; reflexivity.
Defined.

(** C8 -- the accessors never return an empty object: the result of
    [compiler] and of [tester] is never [{}]; a stored value that normalises
    to the empty set reads as [undefined]; and for a stored value of the
    declared type (a string or an environment set) every result other than
    [undefined] is an environment set with at least one entry. *)
Theorem getters_never_empty {K : Constants} (m : AbstractBitConfig) :
  get_compiler m <> VObj [] /\
  get_tester m <> VObj [] /\
  (transformEnvToObject (_compiler m) = VObj [] -> get_compiler m = VUndefined) /\
  (transformEnvToObject (_tester m) = VObj [] -> get_tester m = VUndefined) /\
  (env_typed (_compiler m) = true ->
   get_compiler m = VUndefined \/
   exists name entry rest, get_compiler m = VObj ((name, entry) :: rest)) /\
  (env_typed (_tester m) = true ->
   get_tester m = VUndefined \/
   exists name entry rest, get_tester m = VObj ((name, entry) :: rest)).
Proof.
  rewrite get_compiler_unfold, get_tester_unfold.
  repeat split.
  - apply normalized_not_empty_object.
  - apply normalized_not_empty_object.
  - unfold normalized_or_absent. intros ->. reflexivity.
  - unfold normalized_or_absent. intros ->. reflexivity.
  - apply normalized_typed.
  - apply normalized_typed.
Qed.

Lemma getters_never_empty_witness :
  let m := @constructor bit_constants [("compiler", VStr "none")] in
  @transformEnvToObject bit_constants (_compiler m) = VObj [] /\
  @transformEnvToObject bit_constants (_tester m) = VObj [] /\
  env_typed (_compiler m) = true /\ env_typed (_tester m) = true /\
  @get_compiler bit_constants m = VUndefined /\
  @get_tester bit_constants m = VUndefined.
Proof.
  intros m.
  destruct (@getters_never_empty bit_constants m)
    as (_ & _ & Hc & Ht & _ & _).
  split; [reflexivity |]. split; [reflexivity |].
  split; [reflexivity |]. split; [reflexivity |].
  split; [apply Hc | apply Ht]; reflexivity.
Defined.

(** ** Queries by environment kind *)

(** C3, as the code has it -- [getEnvsByType] does not validate its argument:
    it returns the compiler set when the type is the compiler kind and the
    tester set for every other value, the tester kind included; no value of
    the argument makes it fail. *)
Theorem getEnvsByType_dispatch {K : Constants} (m : AbstractBitConfig) (type : JsVal) :
  (type = VStr COMPILER_ENV_TYPE -> getEnvsByType m type = get_compiler m) /\
  (type <> VStr COMPILER_ENV_TYPE -> getEnvsByType m type = get_tester m).
Proof.
  unfold getEnvsByType. split.
  - intros ->. rewrite strict_eq_str_refl. reflexivity.
  - intros Hne. destruct (strict_eq_str type COMPILER_ENV_TYPE) eqn:He.
    + apply strict_eq_str_true in He. contradiction.
    + reflexivity.
Qed.

Lemma getEnvsByType_dispatch_witness :
  @getEnvsByType bit_constants legacy_model (VStr "compiler")
    = VObj [("babel", VObj [])] /\
  @getEnvsByType bit_constants legacy_model (VStr "tester")
    = VObj [("mocha", VObj [])].
Proof.
  split.
  - apply (proj1 (@getEnvsByType_dispatch bit_constants legacy_model
                    (VStr "compiler"))).
    reflexivity.
  - apply (proj2 (@getEnvsByType_dispatch bit_constants legacy_model
                    (VStr "tester"))).
    discriminate.
Defined.

(** C3, as stated, fails: ["linter"] is neither of the two kinds, yet
    [getEnvsByType] returns the tester set for it, and a caller that may throw
    ([getBackwardCompatibleEnv]) completes normally with it. *)
Lemma getEnvsByType_other_type_returns :
  VStr "linter" <> VStr (@COMPILER_ENV_TYPE bit_constants) /\
  VStr "linter" <> VStr (@TESTER_ENV_TYPE bit_constants) /\
  @getEnvsByType bit_constants legacy_model (VStr "linter")
    = VObj [("mocha", VObj [])] /\
  @getBackwardCompatibleEnv bit_constants legacy_model (VStr "linter")
    = Normal (VStr "mocha").
Proof.
  split; [discriminate |]. split; [discriminate |].
  split; reflexivity.
Qed.

(** ** The environment loader *)

Lemma bind_lift_normal {A B} (a : A) (k : A -> M B) (w : World) :
  bind (lift (Normal a)) k w = k a w.
Proof. reflexivity. Qed.

Lemma bind_lift_throw {A B} (e : JsError) (k : A -> M B) (w : World) :
  bind (lift (Throw e)) k w = (w, Throw e).
Proof. reflexivity. Qed.

Lemma bind_ret_r {A} (c : M A) (w : World) :
  bind c (fun a => ret a) w = c w.
Proof. unfold bind, ret. destruct (c w) as [w' [a|e]]; reflexivity. Qed.

Lemma getEnvsProps_object
    (consumerPath scopePath envName : JsVal) (fields : Props)
    (bitJsonPath envType context : JsVal) :
  getEnvsProps consumerPath scopePath envName (VObj fields) bitJsonPath
               envType context =
  Normal (VObj [ ("name", envName);
                 ("consumerPath", consumerPath);
                 ("scopePath", scopePath);
                 ("rawConfig", obj_get fields "rawConfig");
                 ("files", obj_get fields "files");
                 ("bitJsonPath", bitJsonPath);
                 ("options", obj_get fields "options");
                 ("envType", envType);
                 ("context", context) ]).
Proof. reflexivity. Qed.

(** C7 -- the loader shortcut: when [hasCompiler()] is false, [loadCompiler]
    resolves to [null] and leaves the world as it found it, whatever the
    plugin factory is -- the factory is not run; the same holds of
    [loadTester] when [hasTester()] is false. *)
Theorem load_shortcut {K : Constants} (m : AbstractBitConfig) :
  (hasCompiler m = false ->
   forall load consumerPath scopePath context w,
     loadCompiler load m consumerPath scopePath context w = (w, Normal VNull)) /\
  (hasTester m = false ->
   forall load consumerPath scopePath context w,
     loadTester load m consumerPath scopePath context w = (w, Normal VNull)).
Proof.
  split; intros Hno load consumerPath scopePath context w.
  - unfold loadCompiler. rewrite Hno. reflexivity.
  - unfold loadTester. rewrite Hno. reflexivity.
Qed.

Lemma load_shortcut_witness :
  let m := @constructor bit_constants [] in
  let spy := spy_factory (VStr "handle") in
  @hasCompiler bit_constants m = false /\
  @hasTester bit_constants m = false /\
  @loadCompiler bit_constants spy m (VStr "/c") (VStr "/s") VUndefined empty_world
    = (empty_world, Normal VNull) /\
  @loadTester bit_constants spy m (VStr "/c") (VStr "/s") VUndefined empty_world
    = (empty_world, Normal VNull).
Proof.
  intros m spy.
  destruct (@load_shortcut bit_constants m) as [Hc Ht].
  split; [reflexivity |]. split; [reflexivity |].
  split; [apply Hc | apply Ht]; reflexivity.
Defined.

(** C4, as the code has it -- when [loadEnv] resolves a set whose first entry
    is an object, the factory receives exactly
    [{ name, consumerPath, scopePath, rawConfig, files, bitJsonPath: this.path,
       options, envType, context }], with [name] the first key of the set and
    [rawConfig], [files], [options] read from its entry; [loadEnv] then
    completes as the factory does. *)
Theorem loadEnv_property_bag {K : Constants} (m : AbstractBitConfig)
    (envType consumerPath scopePath : JsVal) (loadFunc : JsVal -> M JsVal)
    (context : JsVal) (name : string) (fields rest : Props) (w : World) :
  getEnvsByType m envType = VObj ((name, VObj fields) :: rest) ->
  loadEnv m envType consumerPath scopePath loadFunc context w =
  loadFunc
    (VObj [ ("name", VStr name);
            ("consumerPath", consumerPath);
            ("scopePath", scopePath);
            ("rawConfig", obj_get fields "rawConfig");
            ("files", obj_get fields "files");
            ("bitJsonPath", path m);
            ("options", obj_get fields "options");
            ("envType", envType);
            ("context", context) ]) w.
Proof.
  intros Henvs. unfold loadEnv. rewrite Henvs. simpl.
  rewrite bind_lift_normal. simpl. rewrite obj_get_head.
  rewrite bind_lift_normal. simpl.
  rewrite getEnvsProps_object, bind_lift_normal.
  apply bind_ret_r.
Qed.

Lemma loadEnv_property_bag_witness :
  factory_calls
    (fst (@loadEnv bit_constants structured_model (VStr "compiler")
            (VStr "/consumer") (VStr "/scope") (spy_factory (VStr "handle"))
            VUndefined empty_world))
  = [ VObj [ ("name", VStr "babel");
             ("consumerPath", VStr "/consumer");
             ("scopePath", VStr "/scope");
             ("rawConfig", VObj [("presets", VArr [VStr "es2015"])]);
             ("files", VArr [VStr ".babelrc"]);
             ("bitJsonPath", VStr "/consumer/bit.json");
             ("options", VObj []);
             ("envType", VStr "compiler");
             ("context", VUndefined) ] ].
Proof.
  rewrite (@loadEnv_property_bag bit_constants structured_model
             (VStr "compiler") (VStr "/consumer") (VStr "/scope")
             (spy_factory (VStr "handle")) VUndefined "babel"
             [("rawConfig", VObj [("presets", VArr [VStr "es2015"])]);
              ("options", VObj []);
              ("files", VArr [VStr ".babelrc"])] [] empty_world);
    reflexivity.
Defined.

(** C4, as stated, fails: the bag the factory receives for the sample model
    is not the eight-key bag of the specification -- it has an [options]
    property, and the configuration path is under [bitJsonPath], there is no
    [configPath]. *)
Lemma loadEnv_bag_differs_from_spec :
  exists bag,
    factory_calls
      (fst (@loadEnv bit_constants structured_model (VStr "compiler")
              (VStr "/consumer") (VStr "/scope") (spy_factory (VStr "handle"))
              VUndefined empty_world)) = [bag] /\
    bag <> specPropertyBag (VStr "babel") (VStr "/consumer") (VStr "/scope")
             (VObj [("presets", VArr [VStr "es2015"])])
             (VArr [VStr ".babelrc"]) (VStr "/consumer/bit.json")
             (VStr "compiler") VUndefined /\
    R_equals bag
      (specPropertyBag (VStr "babel") (VStr "/consumer") (VStr "/scope")
         (VObj [("presets", VArr [VStr "es2015"])])
         (VArr [VStr ".babelrc"]) (VStr "/consumer/bit.json")
         (VStr "compiler") VUndefined) = false /\
    assoc "options" (own_enumerable bag) = Some (VObj []) /\
    assoc "bitJsonPath" (own_enumerable bag) = Some (VStr "/consumer/bit.json") /\
    assoc "configPath" (own_enumerable bag) = None.
Proof.
  eexists. split; [reflexivity |].
  split; [discriminate |].
  repeat split; reflexivity.
Qed.

(** ** The writer *)

Lemma prepareToWrite_missing_package_json {K : Constants}
    (path_join : string -> string -> string) (m : AbstractBitConfig)
    (bitDir : string) (w : World) :
  writeToPackageJson m = true ->
  fs_files w !! composePackageJsonPath path_join bitDir = None ->
  prepareToWrite path_join m bitDir w =
  (w, match toPlainObject m with
      | Normal _ =>
          Throw (ErrnoError "ENOENT" (composePackageJsonPath path_join bitDir))
      | Throw e => Throw e
      end).
Proof.
  intros Hflag Hmissing. unfold prepareToWrite. rewrite Hflag.
  destruct (toPlainObject m) as [plain|e].
  - rewrite bind_lift_normal.
    unfold bind at 1. unfold bind at 1. unfold fs_readJson.
    rewrite Hmissing. reflexivity.
  - apply bind_lift_throw.
Qed.

(** C5 -- a missing package descriptor is fatal: with [writeToPackageJson]
    set and no file at the package descriptor path, [write()] is rejected and
    the world it leaves is the world it found -- no file is written, so the
    workspace descriptor is not created, whatever [writeToBitJson] is.  When
    the plain object can be computed the error is the [ENOENT] of the read. *)
Theorem write_missing_package_json {K : Constants}
    (path_join : string -> string -> string) (m : AbstractBitConfig)
    (bitDir : string) (w : World) :
  writeToPackageJson m = true ->
  fs_files w !! composePackageJsonPath path_join bitDir = None ->
  (exists e, write path_join m bitDir w = (w, Throw e)) /\
  (forall plain,
     toPlainObject m = Normal plain ->
     write path_join m bitDir w =
     (w, Throw (ErrnoError "ENOENT" (composePackageJsonPath path_join bitDir)))) /\
  fs_files (fst (write path_join m bitDir w)) !! composeBitJsonPath path_join bitDir
    = fs_files w !! composeBitJsonPath path_join bitDir.
Proof.
  intros Hflag Hmissing.
  assert (Hrun : write path_join m bitDir w =
                 (w, match toPlainObject m with
                     | Normal _ =>
                         Throw (ErrnoError "ENOENT"
                                  (composePackageJsonPath path_join bitDir))
                     | Throw e => Throw e
                     end)).
  { unfold write, bind.
    rewrite (prepareToWrite_missing_package_json path_join m bitDir w Hflag Hmissing).
    destruct (toPlainObject m); reflexivity. }
  split; [|split].
  - rewrite Hrun. destruct (toPlainObject m); eexists; reflexivity.
  - intros plain Hplain. rewrite Hrun, Hplain. reflexivity.
  - rewrite Hrun. reflexivity.
Qed.

Lemma write_missing_package_json_witness :
  let m := with_write_flags legacy_model true true in
  writeToPackageJson m = true /\ writeToBitJson m = true /\
  fs_files empty_world !! "/ws/package.json" = None /\
  @write bit_constants join_segments m "/ws" empty_world
    = (empty_world, Throw (ErrnoError "ENOENT" "/ws/package.json")) /\
  fs_files (fst (@write bit_constants join_segments m "/ws" empty_world))
    !! "/ws/bit.json" = None.
Proof.
  intros m.
  destruct (@write_missing_package_json bit_constants join_segments m "/ws"
              empty_world eq_refl eq_refl) as (_ & Henoent & Hbit).
  split; [reflexivity |]. split; [reflexivity |]. split; [reflexivity |].
  split.
  - apply (Henoent (VObj [("env", VObj [("compiler", VStr "babel");
                                         ("tester", VStr "mocha")])])).
    reflexivity.
  - exact Hbit.
Defined.

(** With an existing package descriptor and both flags set, [write()]
    resolves to the two paths, package descriptor first, and both files hold
    the plain object. *)
Example write_both_destinations :
  let m := with_write_flags legacy_model true true in
  let plain := VObj [("env", VObj [("compiler", VStr "babel");
                                   ("tester", VStr "mocha")])] in
  let result := @write bit_constants join_segments m "/ws" package_json_world in
  snd result = Normal [VStr "/ws/package.json"; VStr "/ws/bit.json"] /\
  fs_files (fst result) !! "/ws/package.json"
    = Some (VObj [("name", VStr "app"); ("bit", plain)]) /\
  fs_files (fst result) !! "/ws/bit.json" = Some plain.
Proof. repeat split; vm_compute; reflexivity. Qed.

(** What [removeIfExist] does on every path and in every world: it logs the
    deletion, removes whatever is at the workspace descriptor path, and
    resolves to [undefined]. *)
Lemma removeIfExist_run {K : Constants} (path_join : string -> string -> string)
    (bitPath : string) (w : World) :
  removeIfExist path_join bitPath w =
  ({| fs_files := delete (composeBitJsonPath path_join bitPath) (fs_files w);
      logged := logged w ++ ["abstract-bit-config, deleting "
                             +:+ composeBitJsonPath path_join bitPath];
      factory_calls := factory_calls w |},
   Normal VUndefined).
Proof. reflexivity. Qed.

(** C9, on the code -- with no workspace descriptor under [/ws],
    [removeIfExist('/ws')] still logs a deletion and resolves to [undefined],
    not to [false]: the existence test is made on the promise [fs.exists]
    returns, so the guarded branch always runs, while the awaited probe
    [pathHasBitJson] reports [false] in that world.  With a workspace descriptor
    in place the file is removed and the result is [undefined] as well, not
    [true]. *)
Theorem removeIfExist_missing_file :
  fs_files empty_world !! composeBitJsonPath (K := bit_constants) join_segments "/ws"
    = None /\
  logged (fst (@removeIfExist bit_constants join_segments "/ws" empty_world))
    = ["abstract-bit-config, deleting /ws/bit.json"] /\
  snd (@removeIfExist bit_constants join_segments "/ws" empty_world)
    = Normal VUndefined /\
  snd (@pathHasBitJson bit_constants join_segments "/ws" empty_world)
    = Normal false /\
  fs_files (fst (@removeIfExist bit_constants join_segments "/ws" bit_json_world))
    !! "/ws/bit.json" = None /\
  snd (@removeIfExist bit_constants join_segments "/ws" bit_json_world)
    = Normal VUndefined.
Proof.
  rewrite !removeIfExist_run. simpl.
  split; [reflexivity |]. split; [reflexivity |].
  split; [reflexivity |]. split; [reflexivity |]. split; [|reflexivity].
  apply lookup_delete_eq.
Qed.

(** ** Construction and dependencies *)

Local Abbreviation assign_step :=
  (fun (acc : Props) (kv : string * JsVal) => obj_set acc (fst kv) (snd kv)).

Local Abbreviation assign_entry :=
  (fun (target : Props * Prototype) (kv : string * JsVal) =>
     assign_property target (fst kv) (snd kv)).

Lemma assoc_None_not_In (k : string) (kvs : Props) :
  assoc k kvs = None -> k ∉ map fst kvs.
Proof.
  induction kvs as [|[k0 v0] kvs IH]; simpl; intros Hnone.
  - apply not_elem_of_nil.
  - destruct (String.eqb_spec k0 k) as [->|Hne]; [discriminate |].
    apply not_elem_of_cons. split; [congruence | exact (IH Hnone)].
Qed.

Lemma assoc_not_In_None (k : string) (kvs : Props) :
  k ∉ map fst kvs -> assoc k kvs = None.
Proof.
  induction kvs as [|[k0 v0] kvs IH]; simpl; intros Hnot; [reflexivity |].
  apply not_elem_of_cons in Hnot as [Hne Hnot].
  destruct (String.eqb_spec k0 k); [congruence | exact (IH Hnot)].
Qed.

(** In a list in property order, what stands before an array index is a
    smaller array index. *)
Lemma keys_before_index (before after : list string) (k : string) (n : N) :
  keys_in_order (before ++ k :: after) = true ->
  array_index k = Some n ->
  Forall (fun k' => exists n', array_index k' = Some n' /\ (n' < n)%N) before.
Proof.
  intros Horder Hk. induction before as [|k1 before IH]; [constructor |].
  simpl in Horder. apply andb_true_iff in Horder as [Hhead Hrest].
  specialize (IH Hrest). constructor; [|exact IH].
  unfold key_before in Hhead.
  destruct before as [|k2 before]; simpl in Hhead.
  - rewrite Hk in Hhead. destruct (array_index k1) as [a|]; [|discriminate].
    exists a. split; [reflexivity |]. apply N.ltb_lt. exact Hhead.
  - apply Forall_cons in IH as [(b & Hb & Hlt) _]. rewrite Hb in Hhead.
    destruct (array_index k1) as [a|]; [|discriminate].
    exists a. split; [reflexivity |]. apply N.ltb_lt in Hhead. lia.
Qed.

Lemma obj_add_index_last (kvs : Props) (n : N) (k : string) (v : JsVal) :
  Forall (fun k' => exists n', array_index k' = Some n' /\ (n' < n)%N)
         (map fst kvs) ->
  obj_add_index kvs n k v = kvs ++ [(k, v)].
Proof.
  induction kvs as [|[k0 v0] kvs IH]; simpl; intros Hall; [reflexivity |].
  apply Forall_cons in Hall as [(n0 & Hn0 & Hlt) Hall].
  rewrite Hn0. apply N.ltb_lt in Hlt. rewrite Hlt, (IH Hall). reflexivity.
Qed.

(** Setting a key that continues the property order puts it last. *)
Lemma obj_set_next (kvs : Props) (k : string) (v : JsVal) (after : list string) :
  k ∉ map fst kvs ->
  keys_in_order (map fst kvs ++ k :: after) = true ->
  obj_set kvs k v = kvs ++ [(k, v)].
Proof.
  intros Hnew Horder. unfold obj_set.
  rewrite (assoc_not_In_None _ _ Hnew).
  destruct (array_index k) as [n|] eqn:Hk; [|reflexivity].
  apply obj_add_index_last. exact (keys_before_index _ _ _ _ Horder Hk).
Qed.

(** Assigning, to a property list, entries that continue it in property
    order with distinct names appends them. *)
Lemma assign_in_order (new acc : Props) :
  NoDup (map fst (acc ++ new)) ->
  keys_in_order (map fst (acc ++ new)) = true ->
  fold_left assign_step new acc = acc ++ new.
Proof.
  revert acc. induction new as [|[k v] new IH]; intros acc Hnodup Horder; simpl.
  - rewrite app_nil_r. reflexivity.
  - rewrite map_app in Hnodup, Horder. simpl in Hnodup, Horder.
    rewrite (obj_set_next acc k v (map fst new)).
    + rewrite IH; rewrite <- ?app_assoc; [reflexivity | |];
        rewrite map_app; simpl; assumption.
    + apply NoDup_app in Hnodup as (_ & Hsep & _).
      intros Hin. apply (Hsep k Hin). left.
    + exact Horder.
Qed.

Lemma plain_mapping_parts (kvs : Props) :
  plain_mapping kvs = true ->
  NoDup (map fst kvs) /\ keys_in_order (map fst kvs) = true /\
  assoc "__proto__" kvs = None.
Proof.
  unfold plain_mapping. intros H.
  apply andb_true_iff in H as [H Hproto].
  apply andb_true_iff in H as [Hnodup Horder].
  apply bool_decide_eq_true in Hnodup.
  destruct (assoc "__proto__" kvs); [discriminate | auto].
Qed.

(** Assigning entries none of which is named [__proto__] defines or updates
    own properties only. *)
Lemma assign_entries_plain (src own : Props) (p : Prototype) :
  assoc "__proto__" src = None ->
  fold_left assign_entry src (own, p) = (fold_left assign_step src own, p).
Proof.
  revert own. induction src as [|[k v] src IH]; intros own; simpl;
    [reflexivity |].
  destruct (String.eqb_spec k "__proto__") as [->|Hk]; [discriminate |].
  intros Hrest. unfold assign_property. simpl.
  destruct (String.eqb_spec k "__proto__"); [contradiction |].
  apply IH, Hrest.
Qed.

Lemma R_merge_undefined (kvs : Props) :
  plain_mapping kvs = true -> R_merge VUndefined (VObj kvs) = VObj kvs.
Proof.
  intros Hplain. apply plain_mapping_parts in Hplain as (Hnodup & Horder & Hproto).
  unfold R_merge, Object_assign. simpl.
  rewrite (assign_entries_plain kvs [] ObjectPrototype Hproto). simpl.
  rewrite assign_in_order; [reflexivity | exact Hnodup | exact Horder].
Qed.

Lemma constructor_reads_five {K : Constants} (props props' : Props) :
  (forall key,
     In key ["compiler"; "tester"; "lang"; "bindingPrefix"; "extensions"] ->
     obj_get props' key = obj_get props key) ->
  constructor props' = constructor props.
Proof.
  intros Hagree. unfold constructor.
  rewrite !Hagree by (simpl; tauto). reflexivity.
Qed.

(** C10 -- generic construction reads [compiler], [tester], [lang],
    [bindingPrefix] and [extensions] from its props and nothing else: each of
    the five fields is the value the props give when that value is truthy and
    its default otherwise; the four dependency fields of the constructed model
    are unset whatever the props hold, putting any of them in the props
    changes nothing, and two props that agree on the five keys build the same
    model.  The first [addDependency] / [addDependencies] is what gives the
    model a [dependencies] mapping: after it the field holds an object, and
    for an id that converts to a plain mapping, that mapping. *)
Theorem constructor_ignores_dependencies {K : Constants} (props : Props) :
  ((truthy (obj_get props "compiler") = true ->
    _compiler (constructor props) = obj_get props "compiler") /\
   (truthy (obj_get props "tester") = true ->
    _tester (constructor props) = obj_get props "tester") /\
   (truthy (obj_get props "lang") = true ->
    lang (constructor props) = obj_get props "lang") /\
   (truthy (obj_get props "bindingPrefix") = true ->
    bindingPrefix (constructor props) = obj_get props "bindingPrefix") /\
   (truthy (obj_get props "extensions") = true ->
    extensions (constructor props) = obj_get props "extensions")) /\
  ((truthy (obj_get props "compiler") = false ->
    _compiler (constructor props) = VObj []) /\
   (truthy (obj_get props "tester") = false ->
    _tester (constructor props) = VObj []) /\
   (truthy (obj_get props "lang") = false ->
    lang (constructor props) = VStr DEFAULT_LANGUAGE) /\
   (truthy (obj_get props "bindingPrefix") = false ->
    bindingPrefix (constructor props) = VStr DEFAULT_BINDINGS_PREFIX) /\
   (truthy (obj_get props "extensions") = false ->
    extensions (constructor props) = DEFAULT_EXTENSIONS)) /\
  dependencies (constructor props) = VUndefined /\
  devDependencies (constructor props) = VUndefined /\
  compilerDependencies (constructor props) = VUndefined /\
  testerDependencies (constructor props) = VUndefined /\
  (forall key val,
     In key ["dependencies"; "devDependencies"; "compilerDependencies";
             "testerDependencies"] ->
     constructor (obj_set props key val) = constructor props) /\
  (forall props',
     (forall key,
        In key ["compiler"; "tester"; "lang"; "bindingPrefix"; "extensions"] ->
        obj_get props' key = obj_get props key) ->
     constructor props' = constructor props) /\
  (forall bitId,
     exists kvs,
       dependencies (addDependency (constructor props) bitId) = VObj kvs) /\
  (forall bitId kvs,
     toObject bitId = VObj kvs -> plain_mapping kvs = true ->
     dependencies (addDependency (constructor props) bitId) = VObj kvs) /\
  (forall bitIds,
     exists kvs,
       dependencies (addDependencies (constructor props) bitIds) = VObj kvs).
Proof.
  split.
  { repeat split; intros Htruthy; simpl; unfold js_or; rewrite Htruthy;
      reflexivity. }
  split.
  { repeat split; intros Hfalsy; simpl; unfold js_or; rewrite Hfalsy;
      reflexivity. }
  do 4 (split; [reflexivity |]).
  split; [|split; [|split; [|split]]].
  - intros key val Hkey. apply constructor_reads_five.
    intros key' Hkey'. apply obj_get_set_ne.
    simpl in Hkey, Hkey'.
    intros ->.
    repeat (destruct Hkey as [<-|Hkey];
            [repeat (destruct Hkey' as [Hkey'|Hkey']; [discriminate Hkey'|]);
             exact Hkey' |]).
    exact Hkey.
  - apply constructor_reads_five.
  - intros bitId. simpl. unfold R_merge. eexists. reflexivity.
  - intros bitId kvs Hobj Hplain. simpl. rewrite Hobj.
    apply R_merge_undefined. exact Hplain.
  - intros bitIds. simpl. unfold R_merge. eexists. reflexivity.
Qed.

Lemma constructor_ignores_dependencies_witness :
  let props := [("lang", VStr "typescript"); ("bindingPrefix", VStr "")] in
  let id := {| toObject := VObj [("foo@1.0.0", VStr "1.0.0")] |} in
  lang (@constructor bit_constants props) = VStr "typescript" /\
  bindingPrefix (@constructor bit_constants props) = VStr "@bit" /\
  @constructor bit_constants
    (obj_set props "dependencies" (VObj [("bar", VStr "2.0.0")]))
  = @constructor bit_constants props /\
  @constructor bit_constants
    [("lang", VStr "typescript"); ("bindingPrefix", VStr ""); ("x", VNull)]
  = @constructor bit_constants props /\
  dependencies (addDependency (@constructor bit_constants props) id)
  = VObj [("foo@1.0.0", VStr "1.0.0")].
Proof.
  intros props id.
  destruct (@constructor_ignores_dependencies bit_constants props)
    as ((_ & _ & Hlang & _ & _) & (_ & _ & _ & Hprefix & _)
        & _ & _ & _ & _ & Hput & Hagree & _ & Hadd & _).
  split; [exact (Hlang eq_refl) |].
  split; [exact (Hprefix eq_refl) |].
  split; [|split].
  - apply Hput. simpl. tauto.
  - apply Hagree. intros key Hkey. simpl in Hkey.
    repeat (destruct Hkey as [<-|Hkey]; [reflexivity |]). contradiction.
  - apply Hadd; reflexivity.
Defined.

(** ** The backward compatible form *)

Lemma normalized_name {K : Constants} (s : string) :
  s <> NO_PLUGIN_TYPE -> normalized_or_absent (VStr s) = VObj [(s, VObj [])].
Proof.
  intros Hne. unfold normalized_or_absent.
  rewrite (transformEnvToObject_name s Hne). reflexivity.
Qed.

Lemma normalized_object_entry {K : Constants} (k : string) (v : JsVal) (rest : Props) :
  normalized_or_absent (VObj ((k, v) :: rest)) = VObj ((k, v) :: rest).
Proof. reflexivity. Qed.

Lemma get_compiler_set {K : Constants} (m : AbstractBitConfig) (v : JsVal) :
  get_compiler (set_compiler m v) = normalized_or_absent (transformEnvToObject v).
Proof. reflexivity. Qed.

Lemma get_tester_set {K : Constants} (m : AbstractBitConfig) (v : JsVal) :
  get_tester (set_tester m v) = normalized_or_absent (transformEnvToObject v).
Proof. reflexivity. Qed.

Lemma getEnvsByType_compiler {K : Constants} (m : AbstractBitConfig) :
  getEnvsByType m (VStr COMPILER_ENV_TYPE) = get_compiler m.
Proof. unfold getEnvsByType. rewrite strict_eq_str_refl. reflexivity. Qed.

Lemma getEnvsByType_tester {K : Constants} (m : AbstractBitConfig) :
  COMPILER_ENV_TYPE <> TESTER_ENV_TYPE ->
  getEnvsByType m (VStr TESTER_ENV_TYPE) = get_tester m.
Proof.
  intros Hne. unfold getEnvsByType.
  destruct (strict_eq_str (VStr TESTER_ENV_TYPE) COMPILER_ENV_TYPE) eqn:He;
    [|reflexivity].
  apply strict_eq_str_true in He. injection He as He. congruence.
Qed.

(** A set with one entry, an object whose [rawConfig], [options] and [files]
    are nil or empty, is given back as its key. *)
Lemma getBackwardCompatibleEnv_bare {K : Constants} (m : AbstractBitConfig)
    (type : JsVal) (name : string) (fields : Props) :
  getEnvsByType m type = VObj [(name, VObj fields)] ->
  RA_isNilOrEmpty (obj_get fields "rawConfig") = true ->
  RA_isNilOrEmpty (obj_get fields "options") = true ->
  RA_isNilOrEmpty (obj_get fields "files") = true ->
  getBackwardCompatibleEnv m type = Normal (VStr name).
Proof.
  intros Henvs Hraw Hopts Hfiles.
  unfold getBackwardCompatibleEnv. rewrite Henvs. simpl.
  rewrite obj_get_head. simpl.
  rewrite Hraw, Hopts, Hfiles. reflexivity.
Qed.

(** C2 -- the backward-compatibility law: a bare name [s] other than the
    no-plugin sentinel normalises to the one-entry set [{ [s]: {} }], and the
    backward compatible form of a model holding [s] as its compiler (stored by
    the constructor or through the setter) or as its tester is [s] again; more
    generally every one-entry set whose entry has nil or empty [rawConfig],
    [options] and [files] is given back as its bare key. *)
Theorem backward_compatibility_law {K : Constants} (s : string) :
  s <> NO_PLUGIN_TYPE ->
  transformEnvToObject (VStr s) = VObj [(s, VObj [])] /\
  (forall m, _compiler m = VStr s ->
     getBackwardCompatibleEnv m (VStr COMPILER_ENV_TYPE) = Normal (VStr s)) /\
  (forall m,
     getBackwardCompatibleEnv (set_compiler m (VStr s)) (VStr COMPILER_ENV_TYPE)
     = Normal (VStr s)) /\
  (COMPILER_ENV_TYPE <> TESTER_ENV_TYPE ->
   (forall m, _tester m = VStr s ->
      getBackwardCompatibleEnv m (VStr TESTER_ENV_TYPE) = Normal (VStr s)) /\
   (forall m,
      getBackwardCompatibleEnv (set_tester m (VStr s)) (VStr TESTER_ENV_TYPE)
      = Normal (VStr s))) /\
  (forall m type name fields,
     getEnvsByType m type = VObj [(name, VObj fields)] ->
     RA_isNilOrEmpty (obj_get fields "rawConfig") = true ->
     RA_isNilOrEmpty (obj_get fields "options") = true ->
     RA_isNilOrEmpty (obj_get fields "files") = true ->
     getBackwardCompatibleEnv m type = Normal (VStr name)).
Proof.
  intros Hne.
  split; [apply transformEnvToObject_name; exact Hne |].
  split; [|split; [|split]].
  - intros m Hm.
    apply (getBackwardCompatibleEnv_bare m _ s []); try reflexivity.
    rewrite getEnvsByType_compiler, get_compiler_unfold, Hm.
    apply normalized_name. exact Hne.
  - intros m.
    apply (getBackwardCompatibleEnv_bare _ _ s []); try reflexivity.
    rewrite getEnvsByType_compiler, get_compiler_set.
    rewrite (transformEnvToObject_name s Hne). reflexivity.
  - intros Hkinds. split.
    + intros m Hm.
      apply (getBackwardCompatibleEnv_bare m _ s []); try reflexivity.
      rewrite (getEnvsByType_tester m Hkinds), get_tester_unfold, Hm.
      apply normalized_name. exact Hne.
    + intros m.
      apply (getBackwardCompatibleEnv_bare _ _ s []); try reflexivity.
      rewrite (getEnvsByType_tester _ Hkinds), get_tester_set.
      rewrite (transformEnvToObject_name s Hne). reflexivity.
  - intros m type name fields. apply getBackwardCompatibleEnv_bare.
Qed.

Lemma backward_compatibility_law_witness :
  "babel" <> @NO_PLUGIN_TYPE bit_constants /\
  @transformEnvToObject bit_constants (VStr "babel") = VObj [("babel", VObj [])] /\
  @getBackwardCompatibleEnv bit_constants
     (@constructor bit_constants [("compiler", VStr "babel")]) (VStr "compiler")
  = Normal (VStr "babel") /\
  @getBackwardCompatibleEnv bit_constants
     (@set_tester bit_constants (@constructor bit_constants []) (VStr "babel"))
     (VStr "tester")
  = Normal (VStr "babel") /\
  @getBackwardCompatibleEnv bit_constants
     (@constructor bit_constants
        [("compiler", VObj [("babel", VObj [("files", VArr [])])])])
     (VStr "compiler")
  = Normal (VStr "babel").
Proof.
  assert (Hne : "babel" <> @NO_PLUGIN_TYPE bit_constants) by discriminate.
  destruct (@backward_compatibility_law bit_constants "babel" Hne)
    as (Hnorm & Hstored & _ & Htester & Hbare).
  split; [exact Hne |]. split; [exact Hnorm |].
  split; [apply Hstored; reflexivity |].
  split.
  - apply Htester. discriminate.
  - apply (Hbare _ _ "babel" [("files", VArr [])]); reflexivity.
Defined.

(** ** The canonical plain object *)

Lemma isPropDefaultOrNull_spec {K : Constants} (val : JsVal) (key : string) :
  isPropDefaultOrNull val key
  = truthy val && negb (equals_system_default key val).
Proof.
  unfold isPropDefaultOrNull, equals_system_default.
  destruct (truthy val); simpl; [|reflexivity].
  destruct (String.eqb_spec key "lang") as [->|_]; simpl.
  { rewrite !orb_false_r. reflexivity. }
  destruct (String.eqb_spec key "bindingPrefix") as [->|_]; simpl.
  { rewrite !orb_false_r. reflexivity. }
  destruct (String.eqb_spec key "extensions") as [->|_]; reflexivity.
Qed.

Lemma isPropDefaultOrNull_true {K : Constants} (val : JsVal) (key : string) :
  isPropDefaultOrNull val key = true <->
  truthy val = true /\ equals_system_default key val = false.
Proof.
  rewrite isPropDefaultOrNull_spec, andb_true_iff, negb_true_iff. reflexivity.
Qed.

Lemma assoc_Some_In (k : string) (v : JsVal) (kvs : Props) :
  assoc k kvs = Some v -> In k (map fst kvs).
Proof.
  induction kvs as [|[k0 v0] rest IH]; simpl; [discriminate |].
  destruct (String.eqb_spec k0 k) as [->|_]; [left; reflexivity |].
  intros H. right. exact (IH H).
Qed.

(** Filtering an object with distinct keys keeps exactly the bindings the
    predicate accepts. *)
Lemma assoc_filter (fn : JsVal -> string -> bool) (kvs : Props)
    (k : string) (v : JsVal) :
  NoDup (map fst kvs) ->
  assoc k (List.filter (fun kv => fn (snd kv) (fst kv)) kvs) = Some v <->
  assoc k kvs = Some v /\ fn v k = true.
Proof.
  induction kvs as [|[k0 v0] rest IH]; simpl; intros Hnodup.
  - split; [discriminate | intros [H _]; discriminate H].
  - apply NoDup_cons in Hnodup as [Hk0 Hnodup]. specialize (IH Hnodup).
    destruct (fn v0 k0) eqn:Hfn; simpl.
    + destruct (String.eqb_spec k0 k) as [->|_]; [|exact IH].
      split; [intros [= ->]; auto | intros [H _]; exact H].
    + destruct (String.eqb_spec k0 k) as [->|_]; [|exact IH].
      split.
      * intros H. apply IH in H as [H _]. exfalso. apply Hk0.
        apply list_elem_of_In. exact (assoc_Some_In _ _ _ H).
      * intros [[= ->] H]. congruence.
Qed.

Lemma plainCandidate_keys (m : AbstractBitConfig) (compiler tester : JsVal) :
  NoDup (map fst (plainCandidate m compiler tester)).
Proof.
  simpl. repeat (apply NoDup_cons; split;
                 [rewrite ?not_elem_of_cons; repeat split;
                  try discriminate; apply not_elem_of_nil |]).
  apply NoDup_nil. exact I.
Qed.

Lemma normalized_typed_entries {K : Constants} (stored : JsVal) :
  env_typed stored = true ->
  normalized_or_absent stored = VUndefined \/
  exists name fields rest,
    normalized_or_absent stored = VObj ((name, VObj fields) :: rest).
Proof.
  unfold normalized_or_absent.
  destruct stored as [| | | |s| |kvs]; simpl; try discriminate.
  - intros _. destruct (String.eqb s NO_PLUGIN_TYPE); simpl; [left; reflexivity |].
    right. exists s, [], []. reflexivity.
  - destruct kvs as [|[k e] rest]; [left; reflexivity |].
    simpl. destruct e; try discriminate. intros _.
    right. exists k, kvs, rest. reflexivity.
Qed.

Lemma getBackwardCompatibleEnv_absent {K : Constants} (m : AbstractBitConfig)
    (type : JsVal) :
  getEnvsByType m type = VUndefined ->
  getBackwardCompatibleEnv m type = Normal VUndefined.
Proof.
  intros Henvs. unfold getBackwardCompatibleEnv. rewrite Henvs. reflexivity.
Qed.

(** On a model whose stored environments have their declared type the
    backward compatible form is computed without a [TypeError]. *)
Lemma getBackwardCompatibleEnv_total {K : Constants} (m : AbstractBitConfig)
    (type : JsVal) :
  env_typed (_compiler m) = true -> env_typed (_tester m) = true ->
  exists v, getBackwardCompatibleEnv m type = Normal v.
Proof.
  intros Hc Ht.
  assert (Henvs : getEnvsByType m type = VUndefined \/
                  exists name fields rest,
                    getEnvsByType m type = VObj ((name, VObj fields) :: rest)).
  { unfold getEnvsByType. destruct (strict_eq_str type COMPILER_ENV_TYPE).
    - rewrite get_compiler_unfold. apply normalized_typed_entries, Hc.
    - rewrite get_tester_unfold. apply normalized_typed_entries, Ht. }
  destruct Henvs as [Habsent | (name & fields & rest & Hset)].
  - eexists. apply getBackwardCompatibleEnv_absent, Habsent.
  - unfold getBackwardCompatibleEnv. rewrite Hset.
    destruct rest as [|second rest]; simpl; [|eexists; reflexivity].
    rewrite obj_get_head. simpl.
    destruct (RA_isNilOrEmpty (obj_get fields "rawConfig"));
      [|eexists; reflexivity].
    destruct (RA_isNilOrEmpty (obj_get fields "options"));
      [|eexists; reflexivity].
    destruct (RA_isNilOrEmpty (obj_get fields "files")); eexists; reflexivity.
Qed.

Lemma isPropDefaultOrNull_default_lang {K : Constants} :
  isPropDefaultOrNull (VStr DEFAULT_LANGUAGE) "lang" = false.
Proof.
  rewrite isPropDefaultOrNull_spec. unfold equals_system_default.
  rewrite strict_eq_str_refl. simpl. apply andb_false_r.
Qed.

Lemma isPropDefaultOrNull_default_prefix {K : Constants} :
  isPropDefaultOrNull (VStr DEFAULT_BINDINGS_PREFIX) "bindingPrefix" = false.
Proof.
  rewrite isPropDefaultOrNull_spec. unfold equals_system_default.
  rewrite strict_eq_str_refl. simpl. apply andb_false_r.
Qed.

Lemma isPropDefaultOrNull_default_extensions {K : Constants} (val : JsVal) :
  R_equals val DEFAULT_EXTENSIONS = true ->
  isPropDefaultOrNull val "extensions" = false.
Proof.
  intros Heq. rewrite isPropDefaultOrNull_spec. unfold equals_system_default.
  rewrite Heq. simpl. apply andb_false_r.
Qed.

(** C1, as the code has it -- on every model whose stored environments have
    their declared type, [toPlainObject()] returns the object
    [{ lang, bindingPrefix, env: { compiler, tester }, dependencies,
       extensions }] built from the model, with [compiler] and [tester] in
    backward compatible form, filtered: a key is in the result, with the
    value it has in that object, exactly when the value is truthy and is not
    the system default for [lang], [bindingPrefix] or [extensions].  The [env]
    key, whose value is always an object, is therefore always kept; in
    particular a model with the default language and prefix, the default
    extensions, no compiler, no tester and a dependencies mapping yields
    exactly [{ env: { compiler: undefined, tester: undefined },
               dependencies }]. *)
Theorem toPlainObject_filters_defaults {K : Constants} (m : AbstractBitConfig) :
  env_typed (_compiler m) = true ->
  env_typed (_tester m) = true ->
  exists compiler tester kept,
    getBackwardCompatibleEnv m (VStr COMPILER_ENV_TYPE) = Normal compiler /\
    getBackwardCompatibleEnv m (VStr TESTER_ENV_TYPE) = Normal tester /\
    toPlainObject m = Normal (VObj kept) /\
    (forall key val,
       assoc key kept = Some val <->
       assoc key (plainCandidate m compiler tester) = Some val /\
       truthy val = true /\ equals_system_default key val = false) /\
    assoc "env" kept = Some (VObj [("compiler", compiler); ("tester", tester)]) /\
    (lang m = VStr DEFAULT_LANGUAGE ->
     bindingPrefix m = VStr DEFAULT_BINDINGS_PREFIX ->
     R_equals (extensions m) DEFAULT_EXTENSIONS = true ->
     get_compiler m = VUndefined ->
     get_tester m = VUndefined ->
     forall deps,
       dependencies m = VObj deps ->
       kept = [ ("env", VObj [("compiler", VUndefined); ("tester", VUndefined)]);
                ("dependencies", VObj deps) ]).
Proof.
  intros Hc Ht.
  destruct (getBackwardCompatibleEnv_total m (VStr COMPILER_ENV_TYPE) Hc Ht)
    as [compiler Hcompiler].
  destruct (getBackwardCompatibleEnv_total m (VStr TESTER_ENV_TYPE) Hc Ht)
    as [tester Htester].
  exists compiler, tester,
    (List.filter (fun kv => isPropDefaultOrNull (snd kv) (fst kv))
                 (plainCandidate m compiler tester)).
  assert (Hkept : forall key val,
            assoc key (List.filter
                         (fun kv => isPropDefaultOrNull (snd kv) (fst kv))
                         (plainCandidate m compiler tester)) = Some val <->
            assoc key (plainCandidate m compiler tester) = Some val /\
            truthy val = true /\ equals_system_default key val = false).
  { intros key val.
    rewrite (assoc_filter isPropDefaultOrNull _ key val
               (plainCandidate_keys m compiler tester)).
    rewrite isPropDefaultOrNull_true. reflexivity. }
  split; [exact Hcompiler |]. split; [exact Htester |].
  split; [unfold toPlainObject; rewrite Hcompiler, Htester; reflexivity |].
  split; [exact Hkept |].
  split; [apply Hkept; repeat split; reflexivity |].
  intros Hlang Hprefix Hext Hnoc Hnot deps Hdeps.
  assert (compiler = VUndefined) as ->.
  { rewrite getBackwardCompatibleEnv_absent in Hcompiler; [congruence |].
    rewrite getEnvsByType_compiler. exact Hnoc. }
  assert (tester = VUndefined) as ->.
  { rewrite getBackwardCompatibleEnv_absent in Htester; [congruence |].
    unfold getEnvsByType. rewrite Hnoc, Hnot.
    destruct (strict_eq_str _ _); reflexivity. }
  unfold plainCandidate. rewrite Hlang, Hprefix, Hdeps. simpl.
  rewrite isPropDefaultOrNull_default_lang, isPropDefaultOrNull_default_prefix.
  rewrite (isPropDefaultOrNull_default_extensions _ Hext). reflexivity.
Qed.

Lemma toPlainObject_filters_defaults_witness :
  env_typed (_compiler dependencies_only_model) = true /\
  env_typed (_tester dependencies_only_model) = true /\
  exists kept,
    @toPlainObject bit_constants dependencies_only_model = Normal (VObj kept) /\
    kept = [ ("env", VObj [("compiler", VUndefined); ("tester", VUndefined)]);
             ("dependencies", VObj [("foo@1.0.0", VStr "1.0.0")]) ].
Proof.
  split; [reflexivity |]. split; [reflexivity |].
  destruct (@toPlainObject_filters_defaults bit_constants
              dependencies_only_model eq_refl eq_refl)
    as (compiler & tester & kept & _ & _ & Hplain & _ & _ & Hparticular).
  exists kept. split; [exact Hplain |].
  apply Hparticular; reflexivity.
Defined.

(** C1, as stated, fails: the model with the default language and prefix
    whose only other data is the dependencies mapping
    [{ 'foo@1.0.0': '1.0.0' }] does not yield [{ dependencies }] alone -- the
    result has an [env] key as well. *)
Lemma toPlainObject_keeps_env :
  lang dependencies_only_model = VStr (@DEFAULT_LANGUAGE bit_constants) /\
  bindingPrefix dependencies_only_model
    = VStr (@DEFAULT_BINDINGS_PREFIX bit_constants) /\
  @toPlainObject bit_constants dependencies_only_model
    = Normal
        (VObj [ ("env", VObj [("compiler", VUndefined); ("tester", VUndefined)]);
                ("dependencies", VObj [("foo@1.0.0", VStr "1.0.0")]) ]) /\
  @toPlainObject bit_constants dependencies_only_model
    <> Normal (VObj [("dependencies", VObj [("foo@1.0.0", VStr "1.0.0")])]) /\
  R_equals
    (VObj [ ("env", VObj [("compiler", VUndefined); ("tester", VUndefined)]);
            ("dependencies", VObj [("foo@1.0.0", VStr "1.0.0")]) ])
    (VObj [("dependencies", VObj [("foo@1.0.0", VStr "1.0.0")])]) = false.
Proof.
  split; [reflexivity |]. split; [reflexivity |].
  split; [reflexivity |]. split; [discriminate | reflexivity].
Qed.

(** * Further properties *)

(** ** The accessors and the queries *)

Lemma transformEnvToObject_idempotent {K : Constants} (v : JsVal) :
  transformEnvToObject (transformEnvToObject v) = transformEnvToObject v.
Proof.
  destruct v; try reflexivity. simpl.
  destruct (String.eqb s NO_PLUGIN_TYPE); reflexivity.
Qed.

Lemma normalized_transform {K : Constants} (v : JsVal) :
  normalized_or_absent (transformEnvToObject v) = normalized_or_absent v.
Proof.
  unfold normalized_or_absent. rewrite transformEnvToObject_idempotent.
  reflexivity.
Qed.

Lemma normalized_not_isEmpty {K : Constants} (v : JsVal) :
  R_isEmpty (normalized_or_absent v) = false.
Proof.
  unfold normalized_or_absent.
  destruct (R_isEmpty (transformEnvToObject v)) eqn:He; [reflexivity | exact He].
Qed.

Lemma normalized_truthy_not_sentinel {K : Constants} (v : JsVal) :
  truthy (normalized_or_absent v) = true ->
  strict_eq_str v NO_PLUGIN_TYPE = false.
Proof.
  intros Htruthy. destruct (strict_eq_str v NO_PLUGIN_TYPE) eqn:He; [|reflexivity].
  apply strict_eq_str_true in He. subst v.
  rewrite normalized_sentinel in Htruthy. discriminate Htruthy.
Qed.

Lemma has_env_truthy {K : Constants} (stored : JsVal) :
  truthy (normalized_or_absent stored)
  && negb (strict_eq_str stored NO_PLUGIN_TYPE)
  && negb (R_isEmpty (normalized_or_absent stored))
  = truthy (normalized_or_absent stored).
Proof.
  rewrite normalized_not_isEmpty. simpl. rewrite andb_true_r.
  destruct (truthy (normalized_or_absent stored)) eqn:Ht; [|reflexivity].
  rewrite (normalized_truthy_not_sentinel _ Ht). reflexivity.
Qed.

Lemma has_env_accessor {K : Constants} (m : AbstractBitConfig) :
  hasCompiler m = truthy (get_compiler m) /\
  hasTester m = truthy (get_tester m).
Proof.
  split.
  - unfold hasCompiler. rewrite get_compiler_unfold. apply has_env_truthy.
  - unfold hasTester. rewrite get_tester_unfold. apply has_env_truthy.
Qed.

(** X1 -- the guards of [hasCompiler()] and [hasTester()] beyond the first are
    redundant: on every model, whatever is stored, the query is true exactly
    when the accessor's result is truthy. *)
Theorem has_env_is_accessor_truthy {K : Constants} (m : AbstractBitConfig) :
  hasCompiler m = truthy (get_compiler m) /\
  hasTester m = truthy (get_tester m).
Proof.
  split.
  - unfold hasCompiler. rewrite get_compiler_unfold, normalized_not_isEmpty.
    simpl. rewrite andb_true_r.
    destruct (truthy (normalized_or_absent (_compiler m))) eqn:Htruthy;
      [|reflexivity].
    rewrite (normalized_truthy_not_sentinel _ Htruthy). reflexivity.
  - unfold hasTester. rewrite get_tester_unfold, normalized_not_isEmpty.
    simpl. rewrite andb_true_r.
    destruct (truthy (normalized_or_absent (_tester m))) eqn:Htruthy;
      [|reflexivity].
    rewrite (normalized_truthy_not_sentinel _ Htruthy). reflexivity.
Qed.

Lemma getBackwardCompatibleEnv_ext {K : Constants} (m m' : AbstractBitConfig)
    (type : JsVal) :
  getEnvsByType m type = getEnvsByType m' type ->
  getBackwardCompatibleEnv m type = getBackwardCompatibleEnv m' type.
Proof.
  intros Heq. unfold getBackwardCompatibleEnv. rewrite Heq. reflexivity.
Qed.

Lemma toPlainObject_ext {K : Constants} (m m' : AbstractBitConfig) :
  get_compiler m = get_compiler m' ->
  get_tester m = get_tester m' ->
  lang m = lang m' -> bindingPrefix m = bindingPrefix m' ->
  dependencies m = dependencies m' -> extensions m = extensions m' ->
  toPlainObject m = toPlainObject m'.
Proof.
  intros Hc Ht Hl Hb Hd He. unfold toPlainObject.
  rewrite (getBackwardCompatibleEnv_ext m m' (VStr COMPILER_ENV_TYPE))
    by (unfold getEnvsByType; rewrite Hc, Ht; reflexivity).
  rewrite (getBackwardCompatibleEnv_ext m m' (VStr TESTER_ENV_TYPE))
    by (unfold getEnvsByType; rewrite Hc, Ht; reflexivity).
  unfold plainCandidate. rewrite Hl, Hb, Hd, He. reflexivity.
Qed.

(** X2 -- storing through a setter is indistinguishable from storing the raw
    value: whatever value is given, the model the [compiler] setter produces
    and the model holding that value unnormalised have the same accessor
    result, the same [hasCompiler()], the same backward compatible form for
    every type and the same plain object; likewise for the [tester] setter. *)
Theorem setter_is_transparent {K : Constants} (m : AbstractBitConfig) (v : JsVal) :
  (get_compiler (set_compiler m v) = get_compiler (with_compiler m v) /\
   hasCompiler (set_compiler m v) = hasCompiler (with_compiler m v) /\
   (forall type,
      getBackwardCompatibleEnv (set_compiler m v) type
      = getBackwardCompatibleEnv (with_compiler m v) type) /\
   toPlainObject (set_compiler m v) = toPlainObject (with_compiler m v)) /\
  (get_tester (set_tester m v) = get_tester (with_tester m v) /\
   hasTester (set_tester m v) = hasTester (with_tester m v) /\
   (forall type,
      getBackwardCompatibleEnv (set_tester m v) type
      = getBackwardCompatibleEnv (with_tester m v) type) /\
   toPlainObject (set_tester m v) = toPlainObject (with_tester m v)).
Proof.
  assert (Hc : get_compiler (set_compiler m v) = get_compiler (with_compiler m v)).
  { rewrite get_compiler_set, get_compiler_unfold. apply normalized_transform. }
  assert (Ht : get_tester (set_tester m v) = get_tester (with_tester m v)).
  { rewrite get_tester_set, get_tester_unfold. apply normalized_transform. }
  split.
  - split; [exact Hc |]. split; [|split].
    + rewrite (proj1 (has_env_accessor _)),
              (proj1 (has_env_accessor _)), Hc. reflexivity.
    + intros type. apply getBackwardCompatibleEnv_ext.
      unfold getEnvsByType. rewrite Hc. reflexivity.
    + apply toPlainObject_ext; try reflexivity. exact Hc.
  - split; [exact Ht |]. split; [|split].
    + rewrite (proj2 (has_env_accessor _)),
              (proj2 (has_env_accessor _)), Ht. reflexivity.
    + intros type. apply getBackwardCompatibleEnv_ext.
      unfold getEnvsByType. rewrite Ht. reflexivity.
    + apply toPlainObject_ext; try reflexivity. exact Ht.
Qed.

(** ** Loading an environment *)

Lemma loadEnv_absent {K : Constants} (m : AbstractBitConfig)
    (envType consumerPath scopePath : JsVal) (loadFunc : JsVal -> M JsVal)
    (context : JsVal) (w : World) :
  truthy (getEnvsByType m envType) = false ->
  loadEnv m envType consumerPath scopePath loadFunc context w
  = (w, Normal VUndefined).
Proof. intros Habsent. unfold loadEnv. rewrite Habsent. reflexivity. Qed.

Lemma loadEnv_first_entry {K : Constants} (m : AbstractBitConfig)
    (envType consumerPath scopePath : JsVal) (loadFunc : JsVal -> M JsVal)
    (context : JsVal) (name : string) (entry : JsVal) (rest : Props) (w : World) :
  getEnvsByType m envType = VObj ((name, entry) :: rest) ->
  loadEnv m envType consumerPath scopePath loadFunc context w
  = bind (lift (getEnvsProps consumerPath scopePath (VStr name) entry (path m)
                             envType context)) loadFunc w.
Proof.
  intros Henvs. unfold loadEnv. rewrite Henvs. simpl.
  rewrite bind_lift_normal. simpl. rewrite obj_get_head.
  rewrite bind_lift_normal.
  unfold bind at 1.
  destruct (lift (getEnvsProps consumerPath scopePath (VStr name) entry
                               (path m) envType context) w)
    as [w' [bag|e]] eqn:Hbag; unfold bind; rewrite Hbag.
  - apply bind_ret_r.
  - reflexivity.
Qed.

Lemma getEnvsProps_nullish (consumerPath scopePath envName envObject bitJsonPath
                            envType context : JsVal) :
  envObject = VUndefined \/ envObject = VNull ->
  exists msg,
    getEnvsProps consumerPath scopePath envName envObject bitJsonPath
                 envType context = Throw (TypeError msg).
Proof. intros [-> | ->]; eexists; reflexivity. Qed.

(** X3 -- [loadEnv] on its edge inputs, for every factory: when the set
    resolved for the type is falsy the result is [undefined], and when the
    first entry of the set is [undefined] or [null] the call is rejected with
    a [TypeError]; in both cases the factory is not run and the world is
    untouched. *)
Theorem loadEnv_without_factory {K : Constants} (m : AbstractBitConfig)
    (envType consumerPath scopePath : JsVal) (loadFunc : JsVal -> M JsVal)
    (context : JsVal) (w : World) :
  (truthy (getEnvsByType m envType) = false ->
   loadEnv m envType consumerPath scopePath loadFunc context w
   = (w, Normal VUndefined)) /\
  (forall name entry rest,
     getEnvsByType m envType = VObj ((name, entry) :: rest) ->
     entry = VUndefined \/ entry = VNull ->
     exists msg,
       loadEnv m envType consumerPath scopePath loadFunc context w
       = (w, Throw (TypeError msg))).
Proof.
  split; [apply loadEnv_absent |].
  intros name entry rest Henvs Hnullish.
  rewrite (loadEnv_first_entry _ _ _ _ _ _ name entry rest w Henvs).
  destruct (getEnvsProps_nullish consumerPath scopePath (VStr name) entry
              (path m) envType context Hnullish) as [msg Hthrow].
  exists msg. rewrite Hthrow. reflexivity.
Qed.

Lemma loadEnv_without_factory_witness :
  let spy := spy_factory (VStr "handle") in
  @loadEnv bit_constants (@constructor bit_constants []) (VStr "compiler")
     (VStr "/c") (VStr "/s") spy VUndefined empty_world
  = (empty_world, Normal VUndefined) /\
  exists msg,
    @loadEnv bit_constants
       (@constructor bit_constants [("compiler", VObj [("babel", VNull)])])
       (VStr "compiler") (VStr "/c") (VStr "/s") spy VUndefined empty_world
    = (empty_world, Throw (TypeError msg)).
Proof.
  intros spy. split.
  - apply (proj1 (@loadEnv_without_factory bit_constants
                    (@constructor bit_constants []) (VStr "compiler")
                    (VStr "/c") (VStr "/s") spy VUndefined empty_world)).
    reflexivity.
  - apply (proj2 (@loadEnv_without_factory bit_constants
                    (@constructor bit_constants
                       [("compiler", VObj [("babel", VNull)])])
                    (VStr "compiler") (VStr "/c") (VStr "/s") spy VUndefined
                    empty_world) "babel" VNull []).
    + reflexivity.
    + right. reflexivity.
Defined.

(** X4 -- a declared compiler is loaded by one call of the factory, whose
    completion is the completion of [loadCompiler]: when the accessor gives a
    set whose first entry is an object, [hasCompiler()] is true and
    [loadCompiler] behaves exactly as [CompilerExtension.load] applied to the
    bag of that entry with [envType] the compiler kind -- its result, its
    failure and its effects are passed on unchanged.  The same holds of
    [loadTester] when the two kinds differ. *)
Theorem load_declared_env {K : Constants} (load : JsVal -> M JsVal)
    (m : AbstractBitConfig) (consumerPath scopePath context : JsVal)
    (name : string) (fields rest : Props) (w : World) :
  (get_compiler m = VObj ((name, VObj fields) :: rest) ->
   hasCompiler m = true /\
   loadCompiler load m consumerPath scopePath context w =
   load (VObj [ ("name", VStr name);
                ("consumerPath", consumerPath);
                ("scopePath", scopePath);
                ("rawConfig", obj_get fields "rawConfig");
                ("files", obj_get fields "files");
                ("bitJsonPath", path m);
                ("options", obj_get fields "options");
                ("envType", VStr COMPILER_ENV_TYPE);
                ("context", context) ]) w) /\
  (COMPILER_ENV_TYPE <> TESTER_ENV_TYPE ->
   get_tester m = VObj ((name, VObj fields) :: rest) ->
   hasTester m = true /\
   loadTester load m consumerPath scopePath context w =
   load (VObj [ ("name", VStr name);
                ("consumerPath", consumerPath);
                ("scopePath", scopePath);
                ("rawConfig", obj_get fields "rawConfig");
                ("files", obj_get fields "files");
                ("bitJsonPath", path m);
                ("options", obj_get fields "options");
                ("envType", VStr TESTER_ENV_TYPE);
                ("context", context) ]) w).
Proof.
  split.
  - intros Hset.
    assert (Hhas : hasCompiler m = true).
    { rewrite (proj1 (has_env_accessor m)), Hset. reflexivity. }
    split; [exact Hhas |].
    unfold loadCompiler. rewrite Hhas. simpl. rewrite bind_ret_r.
    rewrite (loadEnv_first_entry _ _ _ _ _ _ name (VObj fields) rest w)
      by (rewrite getEnvsByType_compiler; exact Hset).
    rewrite getEnvsProps_object. apply bind_lift_normal.
  - intros Hkinds Hset.
    assert (Hhas : hasTester m = true).
    { rewrite (proj2 (has_env_accessor m)), Hset. reflexivity. }
    split; [exact Hhas |].
    unfold loadTester. rewrite Hhas. simpl. rewrite bind_ret_r.
    rewrite (loadEnv_first_entry _ _ _ _ _ _ name (VObj fields) rest w)
      by (rewrite (getEnvsByType_tester m Hkinds); exact Hset).
    rewrite getEnvsProps_object. apply bind_lift_normal.
Qed.

Lemma load_declared_env_witness :
  @loadCompiler bit_constants (fun _ => throw (Thrown (VStr "plugin missing")))
     legacy_model (VStr "/c") (VStr "/s") VUndefined empty_world
  = (empty_world, Throw (Thrown (VStr "plugin missing"))) /\
  factory_calls
    (fst (@loadTester bit_constants (spy_factory (VStr "handle")) legacy_model
            (VStr "/c") (VStr "/s") VUndefined empty_world))
  = [ VObj [ ("name", VStr "mocha");
             ("consumerPath", VStr "/c");
             ("scopePath", VStr "/s");
             ("rawConfig", VUndefined);
             ("files", VUndefined);
             ("bitJsonPath", VUndefined);
             ("options", VUndefined);
             ("envType", VStr "tester");
             ("context", VUndefined) ] ].
Proof.
  split.
  - rewrite (proj2 (proj1 (@load_declared_env bit_constants
                (fun _ => throw (Thrown (VStr "plugin missing")))
                legacy_model (VStr "/c") (VStr "/s") VUndefined
                "babel" [] [] empty_world) eq_refl)).
    reflexivity.
  - assert (Hkinds : @COMPILER_ENV_TYPE bit_constants
                     <> @TESTER_ENV_TYPE bit_constants) by discriminate.
    rewrite (proj2 (proj2 (@load_declared_env bit_constants
                (spy_factory (VStr "handle"))
                legacy_model (VStr "/c") (VStr "/s") VUndefined
                "mocha" [] [] empty_world) Hkinds eq_refl)).
    reflexivity.
Defined.

(** ** The backward compatible form, case by case *)

Lemma getBackwardCompatibleEnv_from_envs {K : Constants}
    (m m' : AbstractBitConfig) (type type' : JsVal) :
  getEnvsByType m type = getEnvsByType m' type' ->
  getBackwardCompatibleEnv m type = getBackwardCompatibleEnv m' type'.
Proof.
  intros Heq. unfold getBackwardCompatibleEnv. rewrite Heq. reflexivity.
Qed.

(** X5 -- what [getBackwardCompatibleEnv] does away from the bare case: a set
    with two or more entries is returned as it is, whatever its entries are; a
    one-entry set whose entry is an object with a [rawConfig], [options] or
    [files] that is neither nil nor empty is returned as it is; and a
    one-entry set whose entry is [undefined] or [null] makes the call throw a
    [TypeError]. *)
Theorem getBackwardCompatibleEnv_cases {K : Constants} (m : AbstractBitConfig)
    (type : JsVal) :
  (forall first second rest,
     getEnvsByType m type = VObj (first :: second :: rest) ->
     getBackwardCompatibleEnv m type = Normal (VObj (first :: second :: rest))) /\
  (forall name fields,
     getEnvsByType m type = VObj [(name, VObj fields)] ->
     RA_isNilOrEmpty (obj_get fields "rawConfig")
     && RA_isNilOrEmpty (obj_get fields "options")
     && RA_isNilOrEmpty (obj_get fields "files") = false ->
     getBackwardCompatibleEnv m type = Normal (VObj [(name, VObj fields)])) /\
  (forall name entry,
     getEnvsByType m type = VObj [(name, entry)] ->
     entry = VUndefined \/ entry = VNull ->
     exists msg, getBackwardCompatibleEnv m type = Throw (TypeError msg)).
Proof.
  split; [|split].
  - intros first second rest Henvs.
    unfold getBackwardCompatibleEnv. rewrite Henvs. reflexivity.
  - intros name fields Henvs Hsome.
    unfold getBackwardCompatibleEnv. rewrite Henvs. simpl.
    rewrite obj_get_head. simpl.
    destruct (RA_isNilOrEmpty (obj_get fields "rawConfig")); [|reflexivity].
    destruct (RA_isNilOrEmpty (obj_get fields "options")); [|reflexivity].
    destruct (RA_isNilOrEmpty (obj_get fields "files")); [|reflexivity].
    discriminate Hsome.
  - intros name entry Henvs Hnullish.
    unfold getBackwardCompatibleEnv. rewrite Henvs. simpl.
    rewrite obj_get_head. simpl.
    destruct Hnullish as [-> | ->]; eexists; reflexivity.
Qed.

Lemma getBackwardCompatibleEnv_cases_witness :
  @getBackwardCompatibleEnv bit_constants
     (@constructor bit_constants
        [("compiler", VObj [("babel", VNull); ("typescript", VObj [])])])
     (VStr "compiler")
  = Normal (VObj [("babel", VNull); ("typescript", VObj [])]) /\
  @getBackwardCompatibleEnv bit_constants structured_model (VStr "compiler")
  = Normal (@get_compiler bit_constants structured_model) /\
  exists msg,
    @getBackwardCompatibleEnv bit_constants
       (@constructor bit_constants [("tester", VObj [("mocha", VNull)])])
       (VStr "tester")
    = Throw (TypeError msg).
Proof.
  split; [|split].
  - apply (proj1 (@getBackwardCompatibleEnv_cases bit_constants _ _)).
    reflexivity.
  - apply (proj1 (proj2 (@getBackwardCompatibleEnv_cases bit_constants
                           structured_model (VStr "compiler")))
             "babel"
             [("rawConfig", VObj [("presets", VArr [VStr "es2015"])]);
              ("options", VObj []);
              ("files", VArr [VStr ".babelrc"])]);
      reflexivity.
  - apply (proj2 (proj2 (@getBackwardCompatibleEnv_cases bit_constants
                           (@constructor bit_constants
                              [("tester", VObj [("mocha", VNull)])])
                           (VStr "tester")))
             "mocha" VNull).
    + reflexivity.
    + right. reflexivity.
Defined.

Lemma normalized_idempotent {K : Constants} (v : JsVal) :
  normalized_or_absent (normalized_or_absent v) = normalized_or_absent v.
Proof.
  destruct (R_isEmpty (transformEnvToObject v)) eqn:He.
  - assert (Habsent : normalized_or_absent v = VUndefined)
      by (unfold normalized_or_absent; rewrite He; reflexivity).
    rewrite Habsent. reflexivity.
  - assert (Hset : normalized_or_absent v = transformEnvToObject v)
      by (unfold normalized_or_absent; rewrite He; reflexivity).
    rewrite Hset at 1. rewrite normalized_transform. reflexivity.
Qed.

Lemma getEnvsByType_normalized {K : Constants} (m : AbstractBitConfig) (type : JsVal) :
  normalized_or_absent (getEnvsByType m type) = getEnvsByType m type.
Proof.
  unfold getEnvsByType. destruct (strict_eq_str type COMPILER_ENV_TYPE).
  - rewrite get_compiler_unfold. apply normalized_idempotent.
  - rewrite get_tester_unfold. apply normalized_idempotent.
Qed.

(** The three ways [getBackwardCompatibleEnv] completes normally. *)
Lemma getBackwardCompatibleEnv_results {K : Constants} (m : AbstractBitConfig)
    (type r : JsVal) :
  getBackwardCompatibleEnv m type = Normal r ->
  r = VUndefined \/ r = getEnvsByType m type \/ exists name, r = VStr name.
Proof.
  unfold getBackwardCompatibleEnv.
  destruct (truthy (getEnvsByType m type)); simpl;
    [|intros [= <-]; left; reflexivity].
  destruct (Object_keys (getEnvsByType m type)) as [keys|e]; simpl;
    [|discriminate].
  destruct (Nat.eqb (length keys) 1); simpl;
    [|intros [= <-]; right; left; reflexivity].
  destruct keys as [|name keys]; simpl.
  - destruct (get_prop (getEnvsByType m type) "undefined") as [entry|e]; simpl;
      [|discriminate].
    destruct (get_prop entry "rawConfig") as [rc|e]; simpl; [|discriminate].
    destruct (RA_isNilOrEmpty rc);
      [|intros [= <-]; right; left; reflexivity].
    destruct (get_prop entry "options") as [op|e]; simpl; [|discriminate].
    destruct (RA_isNilOrEmpty op);
      [|intros [= <-]; right; left; reflexivity].
    destruct (get_prop entry "files") as [fl|e]; simpl; [|discriminate].
    destruct (RA_isNilOrEmpty fl); intros [= <-]; [left | right; left];
      reflexivity.
  - destruct (get_prop (getEnvsByType m type) name) as [entry|e]; simpl;
      [|discriminate].
    destruct (get_prop entry "rawConfig") as [rc|e]; simpl; [|discriminate].
    destruct (RA_isNilOrEmpty rc);
      [|intros [= <-]; right; left; reflexivity].
    destruct (get_prop entry "options") as [op|e]; simpl; [|discriminate].
    destruct (RA_isNilOrEmpty op);
      [|intros [= <-]; right; left; reflexivity].
    destruct (get_prop entry "files") as [fl|e]; simpl; [|discriminate].
    destruct (RA_isNilOrEmpty fl); intros [= <-];
      [right; right; exists name | right; left]; reflexivity.
Qed.

Lemma getBackwardCompatibleEnv_restored {K : Constants}
    (m m' : AbstractBitConfig) (r : JsVal) :
  getBackwardCompatibleEnv m (VStr COMPILER_ENV_TYPE) = Normal r ->
  r <> VStr NO_PLUGIN_TYPE ->
  get_compiler m' = normalized_or_absent r ->
  getBackwardCompatibleEnv m' (VStr COMPILER_ENV_TYPE) = Normal r.
Proof.
  intros Hr Hsentinel Hstored.
  destruct (getBackwardCompatibleEnv_results m _ r Hr)
    as [-> | [Hsame | [name ->]]].
  - apply getBackwardCompatibleEnv_absent.
    rewrite getEnvsByType_compiler, Hstored. reflexivity.
  - rewrite <- Hr. apply getBackwardCompatibleEnv_from_envs.
    rewrite (getEnvsByType_compiler m'), Hstored, Hsame.
    apply getEnvsByType_normalized.
  - apply (getBackwardCompatibleEnv_bare m' _ name []); try reflexivity.
    rewrite getEnvsByType_compiler, Hstored. apply normalized_name.
    intros ->. apply Hsentinel. reflexivity.
Qed.

(** X6 -- the backward compatible form is stable: whatever
    [getBackwardCompatibleEnv] returns for the compiler, if it is not the
    no-plugin sentinel then giving it to the [compiler] setter of any model
    and asking again returns the same value.  The side condition is needed: a
    one-entry set whose key is the sentinel and whose entry is empty makes
    [hasCompiler()] true and is returned as the sentinel string, which a
    setter turns into no compiler at all. *)
Theorem backward_compatible_form_stable {K : Constants} (m : AbstractBitConfig) :
  (forall r m',
     getBackwardCompatibleEnv m (VStr COMPILER_ENV_TYPE) = Normal r ->
     r <> VStr NO_PLUGIN_TYPE ->
     getBackwardCompatibleEnv (set_compiler m' r) (VStr COMPILER_ENV_TYPE)
     = Normal r) /\
  (forall m',
     _compiler m = VObj [(NO_PLUGIN_TYPE, VObj [])] ->
     hasCompiler m = true /\
     getBackwardCompatibleEnv m (VStr COMPILER_ENV_TYPE)
     = Normal (VStr NO_PLUGIN_TYPE) /\
     hasCompiler (set_compiler m' (VStr NO_PLUGIN_TYPE)) = false /\
     getBackwardCompatibleEnv (set_compiler m' (VStr NO_PLUGIN_TYPE))
                              (VStr COMPILER_ENV_TYPE)
     = Normal VUndefined).
Proof.
  split.
  - intros r m' Hr Hsentinel.
    apply (getBackwardCompatibleEnv_restored m _ r Hr Hsentinel).
    rewrite get_compiler_set. apply normalized_transform.
  - intros m' Hstored.
    assert (Hget : get_compiler m = VObj [(NO_PLUGIN_TYPE, VObj [])]).
    { rewrite get_compiler_unfold, Hstored. reflexivity. }
    assert (Hset : get_compiler (set_compiler m' (VStr NO_PLUGIN_TYPE))
                   = VUndefined).
    { rewrite get_compiler_set, normalized_transform. apply normalized_sentinel. }
    split; [|split; [|split]].
    + rewrite (proj1 (has_env_accessor m)), Hget. reflexivity.
    + apply (getBackwardCompatibleEnv_bare m _ NO_PLUGIN_TYPE []);
        try reflexivity.
      rewrite getEnvsByType_compiler. exact Hget.
    + rewrite (proj1 (has_env_accessor _)), Hset. reflexivity.
    + apply getBackwardCompatibleEnv_absent.
      rewrite getEnvsByType_compiler. exact Hset.
Qed.

Lemma backward_compatible_form_stable_witness :
  @getBackwardCompatibleEnv bit_constants
     (@set_compiler bit_constants legacy_model
        (VObj [("babel", VObj [("files", VArr [])])]))
     (VStr "compiler")
  = Normal (VStr "babel") /\
  @getBackwardCompatibleEnv bit_constants
     (@set_compiler bit_constants legacy_model (VStr "babel"))
     (VStr "compiler")
  = Normal (VStr "babel") /\
  @hasCompiler bit_constants
     (with_compiler legacy_model (VObj [("none", VObj [])])) = true /\
  @hasCompiler bit_constants
     (@set_compiler bit_constants legacy_model (VStr "none")) = false.
Proof.
  split; [reflexivity |].
  split.
  - apply (proj1 (@backward_compatible_form_stable bit_constants
                    (@set_compiler bit_constants legacy_model
                       (VObj [("babel", VObj [("files", VArr [])])])))
             (VStr "babel") legacy_model).
    + reflexivity.
    + discriminate.
  - destruct (proj2 (@backward_compatible_form_stable bit_constants
                       (with_compiler legacy_model (VObj [("none", VObj [])])))
                legacy_model eq_refl) as (Hhas & _ & Hnot & _).
    split; [exact Hhas | exact Hnot].
Defined.

(** ** Merging dependencies *)

Lemma array_index_name (k : string) (n : N) :
  array_index k = Some n -> NilEmpty.string_of_uint (N.to_uint n) = k.
Proof.
  unfold array_index. destruct (NilEmpty.uint_of_string k) as [d|]; [|discriminate].
  destruct (String.eqb_spec (NilEmpty.string_of_uint (N.to_uint (N.of_uint d))) k)
    as [Hname|_]; simpl; [|discriminate].
  destruct (N.of_uint d <? 4294967295)%N; [|discriminate].
  intros [= <-]. exact Hname.
Qed.

Lemma array_index_inj (k k' : string) (n : N) :
  array_index k = Some n -> array_index k' = Some n -> k = k'.
Proof.
  intros Hk Hk'. rewrite <- (array_index_name _ _ Hk).
  exact (array_index_name _ _ Hk').
Qed.

Lemma proto_not_index : array_index "__proto__" = None.
Proof. reflexivity. Qed.

Lemma keys_obj_replace (kvs : Props) (k : string) (v : JsVal) :
  map fst (obj_replace kvs k v) = map fst kvs.
Proof.
  induction kvs as [|[k0 v0] kvs IH]; simpl; [reflexivity |].
  destruct (String.eqb k0 k); simpl; [reflexivity |]. rewrite IH. reflexivity.
Qed.

Lemma keys_obj_add_index (kvs : Props) (n : N) (k : string) (v : JsVal) :
  map fst (obj_add_index kvs n k v) ≡ₚ k :: map fst kvs.
Proof.
  induction kvs as [|[k0 v0] kvs IH]; simpl; [reflexivity |].
  destruct (array_index k0) as [n0|]; [destruct (n0 <? n)%N |]; simpl;
    try reflexivity.
  rewrite IH. apply Permutation_swap.
Qed.

Lemma keys_obj_set (kvs : Props) (k : string) (v : JsVal) :
  match assoc k kvs with
  | Some _ => map fst (obj_set kvs k v) = map fst kvs
  | None => map fst (obj_set kvs k v) ≡ₚ k :: map fst kvs
  end.
Proof.
  unfold obj_set. destruct (assoc k kvs) as [x|].
  - apply keys_obj_replace.
  - destruct (array_index k) as [n|].
    + apply keys_obj_add_index.
    + rewrite map_app. simpl. rewrite Permutation_app_comm. reflexivity.
Qed.

Lemma obj_set_distinct (kvs : Props) (k : string) (v : JsVal) :
  NoDup (map fst kvs) -> NoDup (map fst (obj_set kvs k v)).
Proof.
  intros Hnodup. pose proof (keys_obj_set kvs k v) as Hkeys.
  destruct (assoc k kvs) as [x|] eqn:Hk.
  - rewrite Hkeys. exact Hnodup.
  - rewrite Hkeys. apply NoDup_cons. split; [|exact Hnodup].
    exact (assoc_None_not_In _ _ Hk).
Qed.

Lemma keys_in_order_cons (k : string) (ks : list string) :
  keys_in_order (k :: ks) = true ->
  keys_in_order ks = true.
Proof. simpl. intros H. apply andb_true_iff in H as [_ H]. exact H. Qed.

Lemma keys_in_order_add (k : string) (ks : list string) :
  match ks with k2 :: _ => key_before k k2 | [] => true end = true ->
  keys_in_order ks = true ->
  keys_in_order (k :: ks) = true.
Proof. intros Hhead Hrest. simpl. rewrite Hhead, Hrest. reflexivity. Qed.

Lemma keys_in_order_snoc (ks : list string) (k : string) :
  array_index k = None ->
  keys_in_order ks = true -> keys_in_order (ks ++ [k]) = true.
Proof.
  intros Hk. induction ks as [|k1 ks IH]; [reflexivity |].
  intros Horder. pose proof (keys_in_order_cons _ _ Horder) as Hrest.
  simpl app. apply keys_in_order_add; [|exact (IH Hrest)].
  destruct ks as [|k2 ks]; simpl.
  - unfold key_before. rewrite Hk. destruct (array_index k1); reflexivity.
  - simpl in Horder. apply andb_true_iff in Horder as [Hhead _]. exact Hhead.
Qed.

Lemma obj_add_index_order (kvs : Props) (n : N) (k : string) (v : JsVal) :
  array_index k = Some n -> k ∉ map fst kvs ->
  keys_in_order (map fst kvs) = true ->
  keys_in_order (map fst (obj_add_index kvs n k v)) = true.
Proof.
  intros Hk. induction kvs as [|[k0 v0] kvs IH]; [reflexivity |].
  intros Hnew Horder. simpl in Hnew.
  apply not_elem_of_cons in Hnew as [Hne Hnew].
  pose proof (keys_in_order_cons _ _ Horder) as Hrest.
  simpl obj_add_index.
  destruct (array_index k0) as [n0|] eqn:Hk0.
  - destruct (n0 <? n)%N eqn:Hlt.
    + simpl map. apply keys_in_order_add; [|exact (IH Hnew Hrest)].
      destruct kvs as [|[k2 v2] kvs]; simpl.
      * unfold key_before. rewrite Hk0, Hk. exact Hlt.
      * simpl in Horder. apply andb_true_iff in Horder as [Hhead _].
        destruct (array_index k2) as [n2|] eqn:Hk2;
          [destruct (n2 <? n)%N |]; simpl; try exact Hhead;
          unfold key_before; rewrite Hk0, Hk; exact Hlt.
    + simpl map. apply keys_in_order_add; [|exact Horder].
      unfold key_before. rewrite Hk, Hk0.
      apply N.ltb_lt. apply N.ltb_ge in Hlt.
      assert (n <> n0)
        by (intros ->; apply Hne; exact (array_index_inj _ _ _ Hk Hk0)).
      lia.
  - simpl map. apply keys_in_order_add; [|exact Horder].
    unfold key_before. rewrite Hk, Hk0. reflexivity.
Qed.

Lemma obj_set_order (kvs : Props) (k : string) (v : JsVal) :
  keys_in_order (map fst kvs) = true ->
  keys_in_order (map fst (obj_set kvs k v)) = true.
Proof.
  intros Horder. unfold obj_set. destruct (assoc k kvs) as [x|] eqn:Hk.
  - rewrite keys_obj_replace. exact Horder.
  - destruct (array_index k) as [n|] eqn:Hidx.
    + apply (obj_add_index_order _ _ _ _ Hidx (assoc_None_not_In _ _ Hk) Horder).
    + rewrite map_app. apply keys_in_order_snoc; assumption.
Qed.

Lemma assign_property_keeps (target : Props * Prototype) (k : string) (v : JsVal) :
  fst (assign_property target k v) = obj_set (fst target) k v \/
  fst (assign_property target k v) = fst target.
Proof.
  unfold assign_property.
  destruct (String.eqb k "__proto__"); [|left; reflexivity].
  destruct (assoc k (fst target)); [left; reflexivity |].
  destruct (reaches_proto_setter (snd target)); [right | left]; reflexivity.
Qed.

(** The own properties of a target stay distinct and in property order
    through any run of assignments. *)
Lemma assign_entries_well_formed (src : Props) (target : Props * Prototype) :
  NoDup (map fst (fst target)) ->
  keys_in_order (map fst (fst target)) = true ->
  NoDup (map fst (fst (fold_left assign_entry src target))) /\
  keys_in_order (map fst (fst (fold_left assign_entry src target))) = true.
Proof.
  revert target. induction src as [|[k v] src IH]; intros target Hnodup Horder;
    simpl; [auto |].
  apply IH; destruct (assign_property_keeps target k v) as [-> | ->];
    auto using obj_set_distinct, obj_set_order.
Qed.

Lemma assign_well_formed (src acc : Props) :
  NoDup (map fst acc) -> keys_in_order (map fst acc) = true ->
  NoDup (map fst (fold_left assign_step src acc)) /\
  keys_in_order (map fst (fold_left assign_step src acc)) = true.
Proof.
  revert acc. induction src as [|[k v] src IH]; intros acc Hnodup Horder;
    simpl; [auto |].
  apply IH; auto using obj_set_distinct, obj_set_order.
Qed.

(** After a run of assignments of own properties a key holds the value
    assigned last, or the one it had. *)
Lemma assoc_assign (new acc : Props) (k : string) :
  assoc k (fold_left assign_step new acc)
  = match assoc k (rev new) with Some v => Some v | None => assoc k acc end.
Proof.
  revert acc. induction new as [|[k0 v0] new IH]; intros acc; simpl;
    [reflexivity |].
  rewrite IH, assoc_app. destruct (assoc k (rev new)); [reflexivity |].
  simpl. rewrite assoc_obj_set. destruct (String.eqb k0 k); reflexivity.
Qed.

Lemma assoc_assign_property (target : Props * Prototype) (k k' : string)
    (v : JsVal) :
  k' <> "__proto__" ->
  assoc k' (fst (assign_property target k v))
  = if String.eqb k k' then Some v else assoc k' (fst target).
Proof.
  intros Hk'. unfold assign_property.
  destruct (String.eqb_spec k "__proto__") as [->|_]; [|apply assoc_obj_set].
  destruct (assoc "__proto__" (fst target)); [apply assoc_obj_set |].
  destruct (reaches_proto_setter (snd target)); [|apply assoc_obj_set].
  cbn [fst]. destruct (String.eqb_spec "__proto__" k'); [congruence | reflexivity].
Qed.

(** The same through [Object.assign], for every name but [__proto__]. *)
Lemma assoc_assign_entries (src : Props) (target : Props * Prototype)
    (k : string) :
  k <> "__proto__" ->
  assoc k (fst (fold_left assign_entry src target))
  = match assoc k (rev src) with
    | Some v => Some v
    | None => assoc k (fst target)
    end.
Proof.
  intros Hk. revert target.
  induction src as [|[k0 v0] src IH]; intros target; simpl; [reflexivity |].
  rewrite IH, assoc_app. destruct (assoc k (rev src)); [reflexivity |].
  simpl. rewrite (assoc_assign_property _ _ _ _ Hk).
  destruct (String.eqb k0 k); reflexivity.
Qed.

Lemma assoc_rev_distinct (kvs : Props) (k : string) :
  NoDup (map fst kvs) -> assoc k (rev kvs) = assoc k kvs.
Proof.
  induction kvs as [|[k0 v0] kvs IH]; simpl; intros Hnodup; [reflexivity |].
  apply NoDup_cons in Hnodup as [Hk0 Hnodup].
  rewrite assoc_app, (IH Hnodup). simpl.
  destruct (String.eqb_spec k0 k) as [->|Hne].
  - rewrite (assoc_not_In_None _ _ Hk0). reflexivity.
  - destruct (assoc k kvs); reflexivity.
Qed.

Lemma obj_replace_twice (kvs : Props) (k : string) (x v : JsVal) :
  obj_replace (obj_replace kvs k x) k v = obj_replace kvs k v.
Proof.
  induction kvs as [|[k0 v0] kvs IH]; simpl; [reflexivity |].
  destruct (String.eqb k0 k) eqn:Hk; simpl; rewrite Hk; [reflexivity |].
  rewrite IH. reflexivity.
Qed.

Lemma obj_replace_add_index (kvs : Props) (n : N) (k : string) (x v : JsVal) :
  assoc k kvs = None ->
  obj_replace (obj_add_index kvs n k x) k v = obj_add_index kvs n k v.
Proof.
  induction kvs as [|[k0 v0] kvs IH]; simpl; intros Hnone.
  - rewrite String.eqb_refl. reflexivity.
  - destruct (String.eqb_spec k0 k) as [->|Hk0]; [discriminate |].
    destruct (array_index k0) as [n0|]; [destruct (n0 <? n)%N |]; simpl;
      rewrite ?String.eqb_refl; try reflexivity.
    destruct (String.eqb_spec k0 k); [contradiction |].
    rewrite (IH Hnone). reflexivity.
Qed.

Lemma obj_replace_app_fresh (kvs : Props) (k : string) (x v : JsVal) :
  assoc k kvs = None ->
  obj_replace (kvs ++ [(k, x)]) k v = kvs ++ [(k, v)].
Proof.
  induction kvs as [|[k0 v0] kvs IH]; simpl; intros Hnone.
  - rewrite String.eqb_refl. reflexivity.
  - destruct (String.eqb k0 k); [discriminate |]. rewrite (IH Hnone).
    reflexivity.
Qed.

Lemma obj_set_twice (kvs : Props) (k : string) (x v : JsVal) :
  obj_set (obj_set kvs k x) k v = obj_set kvs k v.
Proof.
  unfold obj_set at 1. rewrite assoc_obj_set_eq.
  unfold obj_set. destruct (assoc k kvs) as [y|] eqn:Hk.
  - apply obj_replace_twice.
  - destruct (array_index k) as [n|].
    + exact (obj_replace_add_index _ _ _ _ _ Hk).
    + exact (obj_replace_app_fresh _ _ _ _ Hk).
Qed.

Lemma obj_replace_comm (kvs : Props) (k k' : string) (v y : JsVal) :
  k <> k' ->
  obj_replace (obj_replace kvs k' y) k v = obj_replace (obj_replace kvs k v) k' y.
Proof.
  intros Hne. induction kvs as [|[k0 v0] kvs IH]; simpl; [reflexivity |].
  destruct (String.eqb_spec k0 k') as [->|Hk']; simpl.
  - destruct (String.eqb_spec k' k); [congruence |]. simpl.
    rewrite String.eqb_refl. reflexivity.
  - destruct (String.eqb_spec k0 k) as [->|Hk]; simpl.
    + destruct (String.eqb_spec k k'); [contradiction | reflexivity].
    + destruct (String.eqb_spec k0 k'); [contradiction |].
      rewrite IH. reflexivity.
Qed.

Lemma obj_replace_add_index_comm (kvs : Props) (n : N) (k k' : string)
    (v y : JsVal) :
  k <> k' ->
  obj_replace (obj_add_index kvs n k' y) k v
  = obj_add_index (obj_replace kvs k v) n k' y.
Proof.
  intros Hne. induction kvs as [|[k0 v0] kvs IH]; simpl.
  - destruct (String.eqb_spec k' k); [congruence | reflexivity].
  - destruct (array_index k0) as [n0|] eqn:Hk0.
    + destruct (n0 <? n)%N eqn:Hlt; simpl.
      * destruct (String.eqb_spec k0 k) as [->|Hk]; simpl;
          rewrite Hk0, Hlt; [reflexivity |]. rewrite IH. reflexivity.
      * destruct (String.eqb_spec k' k); [congruence |].
        destruct (String.eqb_spec k0 k) as [->|Hk]; simpl;
          rewrite Hk0, Hlt; reflexivity.
    + simpl. destruct (String.eqb_spec k' k); [congruence |].
      destruct (String.eqb_spec k0 k) as [->|Hk]; simpl; rewrite Hk0;
        reflexivity.
Qed.

Lemma obj_replace_app (kvs more : Props) (k : string) (v x : JsVal) :
  assoc k kvs = Some x ->
  obj_replace (kvs ++ more) k v = obj_replace kvs k v ++ more.
Proof.
  induction kvs as [|[k0 v0] kvs IH]; simpl; [discriminate |].
  destruct (String.eqb k0 k); [reflexivity |].
  intros Hrest. rewrite (IH Hrest). reflexivity.
Qed.

Lemma obj_add_index_comm (kvs : Props) (n n' : N) (k k' : string) (v y : JsVal) :
  n <> n' ->
  array_index k = Some n -> array_index k' = Some n' ->
  obj_add_index (obj_add_index kvs n k v) n' k' y
  = obj_add_index (obj_add_index kvs n' k' y) n k v.
Proof.
  intros Hne Hk Hk'. induction kvs as [|[k0 v0] kvs IH]; simpl.
  - rewrite Hk, Hk'.
    destruct (n <? n')%N eqn:H1, (n' <? n)%N eqn:H2; try reflexivity.
    + apply N.ltb_lt in H1, H2. lia.
    + apply N.ltb_ge in H1, H2. lia.
  - destruct (array_index k0) as [n0|] eqn:Hk0.
    + destruct (n0 <? n)%N eqn:Hlt, (n0 <? n')%N eqn:Hlt'; simpl;
        rewrite ?Hk0, ?Hk, ?Hk', ?Hlt, ?Hlt'.
      * rewrite IH. reflexivity.
      * assert (Hnn : (n' <? n)%N = true)
          by (apply N.ltb_lt; apply N.ltb_lt in Hlt; apply N.ltb_ge in Hlt'; lia).
        rewrite Hnn. simpl. rewrite ?Hk0, ?Hlt, ?Hlt'. reflexivity.
      * assert (Hnn : (n <? n')%N = true)
          by (apply N.ltb_lt; apply N.ltb_lt in Hlt'; apply N.ltb_ge in Hlt; lia).
        rewrite Hnn. simpl. rewrite ?Hk0, ?Hlt, ?Hlt'. reflexivity.
      * destruct (n <? n')%N eqn:H1, (n' <? n)%N eqn:H2; simpl;
          rewrite ?Hk0, ?Hlt, ?Hlt'; try reflexivity.
        -- apply N.ltb_lt in H1, H2. lia.
        -- apply N.ltb_ge in H1, H2. lia.
    + simpl. rewrite ?Hk0, ?Hk, ?Hk'.
      destruct (n <? n')%N eqn:H1, (n' <? n)%N eqn:H2; simpl;
        rewrite ?Hk0; try reflexivity.
      * apply N.ltb_lt in H1, H2. lia.
      * apply N.ltb_ge in H1, H2. lia.
Qed.

Lemma obj_add_index_app (kvs : Props) (n : N) (k k' : string) (v y : JsVal) :
  array_index k' = None ->
  obj_add_index (kvs ++ [(k', y)]) n k v = obj_add_index kvs n k v ++ [(k', y)].
Proof.
  intros Hk'. induction kvs as [|[k0 v0] kvs IH]; simpl.
  - rewrite Hk'. reflexivity.
  - destruct (array_index k0) as [n0|]; [destruct (n0 <? n)%N |]; simpl;
      try reflexivity.
    rewrite IH. reflexivity.
Qed.

Lemma obj_set_present (kvs : Props) (k : string) (v x : JsVal) :
  assoc k kvs = Some x -> obj_set kvs k v = obj_replace kvs k v.
Proof. intros Hk. unfold obj_set. rewrite Hk. reflexivity. Qed.

Lemma obj_set_index (kvs : Props) (k : string) (v : JsVal) (n : N) :
  assoc k kvs = None -> array_index k = Some n ->
  obj_set kvs k v = obj_add_index kvs n k v.
Proof. intros Hk Hn. unfold obj_set. rewrite Hk, Hn. reflexivity. Qed.

Lemma obj_set_other (kvs : Props) (k : string) (v : JsVal) :
  assoc k kvs = None -> array_index k = None ->
  obj_set kvs k v = kvs ++ [(k, v)].
Proof. intros Hk Hn. unfold obj_set. rewrite Hk, Hn. reflexivity. Qed.

(** Two assignments to different keys can be exchanged, unless both keys are
    new names that are not array indices. *)
Lemma obj_set_comm (kvs : Props) (k k' : string) (v y : JsVal) :
  k <> k' ->
  is_Some (assoc k kvs) \/ is_Some (array_index k) ->
  obj_set (obj_set kvs k v) k' y = obj_set (obj_set kvs k' y) k v.
Proof.
  intros Hne Hk.
  assert (Hk'after : assoc k' (obj_set kvs k v) = assoc k' kvs)
    by (apply assoc_obj_set_ne; exact Hne).
  assert (Hkafter : assoc k (obj_set kvs k' y) = assoc k kvs)
    by (apply assoc_obj_set_ne; congruence).
  destruct (assoc k kvs) as [x|] eqn:Hpk.
  - rewrite (obj_set_present kvs k v x Hpk).
    rewrite (obj_set_present (obj_set kvs k' y) k v x Hkafter).
    rewrite (obj_set_present kvs k v x Hpk) in Hk'after.
    destruct (assoc k' kvs) as [x'|] eqn:Hpk'.
    + rewrite (obj_set_present _ k' y x' Hk'after).
      rewrite (obj_set_present kvs k' y x' Hpk').
      symmetry. apply obj_replace_comm. exact Hne.
    + destruct (array_index k') as [n'|] eqn:Hidx'.
      * rewrite (obj_set_index _ k' y n' Hk'after Hidx').
        rewrite (obj_set_index kvs k' y n' Hpk' Hidx').
        symmetry. apply obj_replace_add_index_comm. exact Hne.
      * rewrite (obj_set_other _ k' y Hk'after Hidx').
        rewrite (obj_set_other kvs k' y Hpk' Hidx').
        symmetry. apply (obj_replace_app _ _ _ _ x Hpk).
  - destruct Hk as [[x Hx] | [n Hidx]]; [discriminate |].
    rewrite (obj_set_index kvs k v n Hpk Hidx).
    rewrite (obj_set_index (obj_set kvs k' y) k v n Hkafter Hidx).
    rewrite (obj_set_index kvs k v n Hpk Hidx) in Hk'after.
    destruct (assoc k' kvs) as [x'|] eqn:Hpk'.
    + rewrite (obj_set_present _ k' y x' Hk'after).
      rewrite (obj_set_present kvs k' y x' Hpk').
      apply obj_replace_add_index_comm. congruence.
    + destruct (array_index k') as [n'|] eqn:Hidx'.
      * rewrite (obj_set_index _ k' y n' Hk'after Hidx').
        rewrite (obj_set_index kvs k' y n' Hpk' Hidx').
        apply obj_add_index_comm; try assumption.
        intros ->. apply Hne. exact (array_index_inj _ _ _ Hidx Hidx').
      * rewrite (obj_set_other _ k' y Hk'after Hidx').
        rewrite (obj_set_other kvs k' y Hpk' Hidx').
        symmetry. apply obj_add_index_app. exact Hidx'.
Qed.

Lemma assign_push (new acc : Props) (k : string) (v : JsVal) :
  k ∉ map fst new ->
  is_Some (assoc k acc) \/ is_Some (array_index k) ->
  obj_set (fold_left assign_step new acc) k v
  = fold_left assign_step new (obj_set acc k v).
Proof.
  revert acc. induction new as [|[k' y] new IH]; intros acc Hnot Hk; simpl;
    [reflexivity |].
  simpl in Hnot. apply not_elem_of_cons in Hnot as [Hne Hnot].
  rewrite (IH (obj_set acc k' y) Hnot).
  - rewrite (obj_set_comm acc k k' v y Hne Hk). reflexivity.
  - destruct Hk as [Hk | Hk]; [left | right; exact Hk].
    rewrite assoc_obj_set_ne by congruence. exact Hk.
Qed.

Lemma assign_obj_replace (n acc : Props) (k : string) (v x : JsVal) :
  NoDup (map fst n) -> assoc k n = Some x ->
  fold_left assign_step (obj_replace n k v) acc
  = obj_set (fold_left assign_step n acc) k v.
Proof.
  revert acc. induction n as [|[k0 v0] n IH]; intros acc Hnodup; simpl;
    [discriminate |].
  apply NoDup_cons in Hnodup as [Hk0 Hnodup].
  destruct (String.eqb_spec k0 k) as [->|Hne]; simpl.
  - intros _. rewrite (assign_push n (obj_set acc k v0) k v Hk0)
      by (left; rewrite assoc_obj_set_eq; eexists; reflexivity).
    rewrite obj_set_twice. reflexivity.
  - intros Hrest. apply IH; assumption.
Qed.

Lemma assign_obj_add_index (n acc : Props) (k : string) (v : JsVal) (i : N) :
  k ∉ map fst n -> array_index k = Some i ->
  fold_left assign_step (obj_add_index n i k v) acc
  = obj_set (fold_left assign_step n acc) k v.
Proof.
  intros Hnot Hidx. revert acc Hnot.
  induction n as [|[k0 v0] n IH]; intros acc Hnot; [reflexivity |].
  assert (Hpush : fold_left assign_step ((k, v) :: (k0, v0) :: n) acc
                  = obj_set (fold_left assign_step ((k0, v0) :: n) acc) k v).
  { rewrite (assign_push ((k0, v0) :: n) acc k v Hnot)
      by (right; eexists; exact Hidx).
    reflexivity. }
  simpl in Hnot. apply not_elem_of_cons in Hnot as [Hne Hnot].
  simpl obj_add_index.
  destruct (array_index k0) as [n0|]; [destruct (n0 <? i)%N |];
    try exact Hpush.
  simpl. apply IH. exact Hnot.
Qed.

Lemma assign_obj_set (n acc : Props) (k : string) (v : JsVal) :
  NoDup (map fst n) ->
  fold_left assign_step (obj_set n k v) acc
  = obj_set (fold_left assign_step n acc) k v.
Proof.
  intros Hnodup.
  destruct (assoc k n) as [x|] eqn:Hk.
  - rewrite (obj_set_present n k v x Hk).
    exact (assign_obj_replace n acc k v x Hnodup Hk).
  - destruct (array_index k) as [i|] eqn:Hidx.
    + rewrite (obj_set_index n k v i Hk Hidx).
      exact (assign_obj_add_index n acc k v i (assoc_None_not_In _ _ Hk) Hidx).
    + rewrite (obj_set_other n k v Hk Hidx), fold_left_app. reflexivity.
Qed.

(** Assigning the merge of some properties is assigning the properties. *)
Lemma assign_merged (b acc : Props) :
  fold_left assign_step (fold_left assign_step b []) acc
  = fold_left assign_step b acc.
Proof.
  induction b as [|[k v] b IH] using rev_ind; [reflexivity |].
  rewrite !fold_left_app. simpl.
  rewrite assign_obj_set
    by (apply assign_well_formed; [apply NoDup_nil; exact I | reflexivity]).
  rewrite IH. reflexivity.
Qed.

Lemma assign_well_formed_nil (kvs : Props) :
  NoDup (map fst kvs) -> keys_in_order (map fst kvs) = true ->
  fold_left assign_step kvs [] = kvs.
Proof. intros Hnodup Horder. rewrite assign_in_order; auto. Qed.

Section Merging.
Arguments String.eqb : simpl never.

Lemma assoc_without_proto (kvs : Props) (k : string) :
  k <> "__proto__" -> assoc k (without_proto kvs) = assoc k kvs.
Proof.
  intros Hk. induction kvs as [|[k0 v0] kvs IH]; simpl; [reflexivity |].
  destruct (String.eqb_spec k0 "__proto__") as [->|Hk0]; simpl.
  - destruct (String.eqb_spec "__proto__" k); [congruence | exact IH].
  - rewrite IH. reflexivity.
Qed.

Lemma assoc_proto_without_proto (kvs : Props) :
  assoc "__proto__" (without_proto kvs) = None.
Proof.
  induction kvs as [|[k0 v0] kvs IH]; simpl; [reflexivity |].
  destruct (String.eqb_spec k0 "__proto__") as [->|Hk0]; simpl; [exact IH |].
  destruct (String.eqb_spec k0 "__proto__"); [contradiction | exact IH].
Qed.

Lemma without_proto_plain (kvs : Props) :
  assoc "__proto__" kvs = None -> without_proto kvs = kvs.
Proof.
  induction kvs as [|[k0 v0] kvs IH]; simpl; [reflexivity |].
  destruct (String.eqb_spec k0 "__proto__") as [->|Hk0]; [discriminate |].
  simpl. intros Hrest. rewrite (IH Hrest). reflexivity.
Qed.

Lemma without_proto_app (a b : Props) :
  without_proto (a ++ b) = without_proto a ++ without_proto b.
Proof. unfold without_proto. induction a as [|[k v] a IH]; simpl; [reflexivity |].
  destruct (negb (String.eqb k "__proto__")); simpl; rewrite IH; reflexivity.
Qed.

Lemma without_proto_replace_proto (kvs : Props) (v : JsVal) :
  without_proto (obj_replace kvs "__proto__" v) = without_proto kvs.
Proof.
  induction kvs as [|[k0 v0] kvs IH]; simpl; [reflexivity |].
  destruct (String.eqb_spec k0 "__proto__") as [->|Hk0]; simpl.
  - reflexivity.
  - destruct (String.eqb_spec k0 "__proto__"); [contradiction |]. simpl.
    rewrite IH. reflexivity.
Qed.

Lemma without_proto_set_proto (kvs : Props) (v : JsVal) :
  without_proto (obj_set kvs "__proto__" v) = without_proto kvs.
Proof.
  unfold obj_set. destruct (assoc "__proto__" kvs).
  - apply without_proto_replace_proto.
  - rewrite proto_not_index, without_proto_app. simpl. apply app_nil_r.
Qed.

Lemma without_proto_replace (kvs : Props) (k : string) (v : JsVal) :
  k <> "__proto__" ->
  without_proto (obj_replace kvs k v) = obj_replace (without_proto kvs) k v.
Proof.
  intros Hk. induction kvs as [|[k0 v0] kvs IH]; simpl; [reflexivity |].
  destruct (String.eqb_spec k0 k) as [->|Hk0]; simpl.
  - destruct (String.eqb_spec k "__proto__"); [contradiction |]. simpl.
    rewrite String.eqb_refl. reflexivity.
  - destruct (String.eqb_spec k0 "__proto__") as [->|Hp]; simpl; [exact IH |].
    destruct (String.eqb_spec k0 k); [contradiction |]. rewrite IH. reflexivity.
Qed.

Lemma keys_after_name (k : string) (ks : list string) :
  keys_in_order (k :: ks) = true -> array_index k = None ->
  Forall (fun k' => array_index k' = None) ks.
Proof.
  revert k. induction ks as [|k2 ks IH]; intros k Horder Hk; [constructor |].
  simpl in Horder. apply andb_true_iff in Horder as [Hhead Hrest].
  unfold key_before in Hhead. rewrite Hk in Hhead.
  destruct (array_index k2) eqn:Hk2; [discriminate |].
  constructor; [exact Hk2 |]. apply (IH k2); [exact Hrest | exact Hk2].
Qed.

Lemma obj_add_index_names (kvs : Props) (n : N) (k : string) (v : JsVal) :
  Forall (fun k' => array_index k' = None) (map fst kvs) ->
  obj_add_index kvs n k v = (k, v) :: kvs.
Proof.
  destruct kvs as [|[k0 v0] kvs]; [reflexivity |]. simpl.
  intros Hall. apply Forall_cons in Hall as [Hk0 _]. rewrite Hk0. reflexivity.
Qed.

Lemma without_proto_names (kvs : Props) :
  Forall (fun k' => array_index k' = None) (map fst kvs) ->
  Forall (fun k' => array_index k' = None) (map fst (without_proto kvs)).
Proof.
  induction kvs as [|[k0 v0] kvs IH]; simpl; intros Hall; [constructor |].
  apply Forall_cons in Hall as [Hk0 Hall].
  destruct (negb (String.eqb k0 "__proto__")); simpl; auto.
Qed.

Lemma index_not_proto (k : string) (n : N) :
  array_index k = Some n -> String.eqb k "__proto__" = false.
Proof.
  intros Hk. destruct (String.eqb_spec k "__proto__") as [->|_]; [|reflexivity].
  rewrite proto_not_index in Hk. discriminate Hk.
Qed.

Lemma without_proto_cons (k : string) (v : JsVal) (kvs : Props) :
  String.eqb k "__proto__" = false ->
  without_proto ((k, v) :: kvs) = (k, v) :: without_proto kvs.
Proof. intros Hk. unfold without_proto. simpl. rewrite Hk. reflexivity. Qed.

Lemma without_proto_add_index (kvs : Props) (n : N) (k : string) (v : JsVal) :
  k <> "__proto__" ->
  keys_in_order (map fst kvs) = true ->
  without_proto (obj_add_index kvs n k v)
  = obj_add_index (without_proto kvs) n k v.
Proof.
  intros Hk.
  assert (Hkb : String.eqb k "__proto__" = false)
    by (destruct (String.eqb_spec k "__proto__"); [contradiction | reflexivity]).
  induction kvs as [|[k0 v0] kvs IH]; intros Horder.
  - cbn [obj_add_index]. rewrite (without_proto_cons _ _ _ Hkb). reflexivity.
  - cbn [obj_add_index]. destruct (array_index k0) as [n0|] eqn:Hk0.
    + pose proof (index_not_proto _ _ Hk0) as Hk0b.
      destruct (n0 <? n)%N eqn:Hlt.
      * rewrite !(without_proto_cons _ _ _ Hk0b).
        rewrite (IH (keys_in_order_cons _ _ Horder)).
        cbn [obj_add_index]. rewrite Hk0, Hlt. reflexivity.
      * rewrite (without_proto_cons _ _ _ Hkb), (without_proto_cons _ _ _ Hk0b).
        cbn [obj_add_index]. rewrite Hk0, Hlt. reflexivity.
    + rewrite (without_proto_cons _ _ _ Hkb).
      symmetry. apply obj_add_index_names.
      apply without_proto_names. simpl. constructor; [exact Hk0 |].
      exact (keys_after_name _ _ Horder Hk0).
Qed.

Lemma without_proto_obj_set (kvs : Props) (k : string) (v : JsVal) :
  k <> "__proto__" ->
  keys_in_order (map fst kvs) = true ->
  without_proto (obj_set kvs k v) = obj_set (without_proto kvs) k v.
Proof.
  intros Hk Horder. unfold obj_set. rewrite (assoc_without_proto _ _ Hk).
  destruct (assoc k kvs).
  - apply without_proto_replace. exact Hk.
  - destruct (array_index k) as [n|].
    + apply without_proto_add_index; assumption.
    + rewrite without_proto_app. simpl.
      destruct (String.eqb_spec k "__proto__"); [contradiction | reflexivity].
Qed.

Lemma assign_property_order (target : Props * Prototype) (k : string) (v : JsVal) :
  keys_in_order (map fst (fst target)) = true ->
  keys_in_order (map fst (fst (assign_property target k v))) = true.
Proof.
  intros Horder. destruct (assign_property_keeps target k v) as [-> | ->];
    auto using obj_set_order.
Qed.

(** Apart from [__proto__], the own properties [Object.assign] leaves are
    those of plain assignment of the sources without their [__proto__]. *)
Lemma without_proto_assign_entries (src : Props) (target : Props * Prototype) :
  keys_in_order (map fst (fst target)) = true ->
  without_proto (fst (fold_left assign_entry src target))
  = fold_left assign_step (without_proto src) (without_proto (fst target)).
Proof.
  revert target. induction src as [|[k v] src IH]; intros target Horder;
    [reflexivity |].
  change (fold_left assign_entry ((k, v) :: src) target)
    with (fold_left assign_entry src (assign_property target k v)).
  rewrite (IH _ (assign_property_order target k v Horder)).
  unfold assign_property.
  destruct (String.eqb k "__proto__") eqn:Hkb.
  - apply String.eqb_eq in Hkb. subst k.
    assert (Hsrc : without_proto (("__proto__", v) :: src) = without_proto src)
      by reflexivity.
    rewrite Hsrc. f_equal.
    destruct (assoc "__proto__" (fst target));
      [apply without_proto_set_proto |].
    destruct (reaches_proto_setter (snd target));
      [reflexivity | apply without_proto_set_proto].
  - rewrite (without_proto_cons _ _ _ Hkb). cbn [fold_left fst snd]. f_equal.
    apply without_proto_obj_set; [|exact Horder].
    intros ->. rewrite String.eqb_refl in Hkb. discriminate Hkb.
Qed.

(** A source with distinct names assigned to a target that has the prototype
    of plain objects and no own [__proto__] leaves no own [__proto__]. *)
Lemma assign_entries_distinct (src own : Props) (p : Prototype) :
  assoc "__proto__" own = None ->
  p = ObjectPrototype \/ "__proto__" ∉ map fst src ->
  NoDup (map fst src) ->
  fst (fold_left assign_entry src (own, p))
  = fold_left assign_step (without_proto src) own.
Proof.
  revert own p. induction src as [|[k v] src IH]; intros own p Hown Hp Hnodup;
    [reflexivity |].
  simpl in Hnodup. apply NoDup_cons in Hnodup as [Hk Hnodup].
  simpl fold_left at 1. unfold assign_property. simpl fst. simpl snd.
  destruct (String.eqb_spec k "__proto__") as [->|Hne].
  - rewrite Hown. destruct Hp as [-> | Hp].
    + simpl. apply IH; [exact Hown | right; exact Hk | exact Hnodup].
    + exfalso. apply Hp. simpl. left.
  - simpl without_proto.
    destruct (String.eqb_spec k "__proto__"); [contradiction |]. simpl.
    apply IH; [| |exact Hnodup].
    + rewrite assoc_obj_set_ne by exact Hne. exact Hown.
    + destruct Hp as [Hp | Hp]; [left; exact Hp | right].
      simpl in Hp. apply not_elem_of_cons in Hp as [_ Hp]. exact Hp.
Qed.

Lemma assign_without_proto_plain (src own : Props) :
  assoc "__proto__" own = None ->
  assoc "__proto__" (fold_left assign_step (without_proto src) own) = None.
Proof.
  intros Hown. rewrite assoc_assign, Hown.
  rewrite (assoc_not_In_None "__proto__" (rev (without_proto src)));
    [reflexivity |].
  intros Hin. apply list_elem_of_In, in_map_iff in Hin as ([k v] & Hk & Hin).
  simpl in Hk. subst k. apply in_rev in Hin.
  pose proof (assoc_proto_without_proto src) as Hnone.
  apply assoc_None_not_In in Hnone. apply Hnone.
  apply list_elem_of_In. apply (in_map fst) in Hin. exact Hin.
Qed.


Lemma with_dependencies_same (m : AbstractBitConfig) :
  with_dependencies m (dependencies m) = m.
Proof. destruct m; reflexivity. Qed.

Lemma assoc_rev_None (kvs : Props) (k : string) :
  assoc k kvs = None -> assoc k (rev kvs) = None.
Proof.
  intros Hnone. apply assoc_not_In_None. intros Hin.
  apply (assoc_None_not_In _ _ Hnone).
  apply list_elem_of_In. apply list_elem_of_In in Hin.
  rewrite map_rev in Hin. apply in_rev in Hin. exact Hin.
Qed.

Lemma assign_nil_plain (d : Props) :
  assoc "__proto__" d = None ->
  assoc "__proto__" (fold_left assign_step d []) = None.
Proof.
  intros Hd. rewrite assoc_assign, (assoc_rev_None _ _ Hd). reflexivity.
Qed.


Lemma Object_assign_flat (sources : list JsVal) (target : Props * Prototype) :
  fold_left
    (fun acc src => fold_left assign_entry (own_enumerable src) acc)
    sources target
  = fold_left assign_entry (assigned sources) target.
Proof.
  unfold assigned. revert target.
  induction sources as [|src sources IH]; intros target; simpl; [reflexivity |].
  rewrite fold_left_app. apply IH.
Qed.

Lemma R_mergeAll_own (sources : list JsVal) :
  R_mergeAll sources
  = VObj (fst (fold_left assign_entry (assigned sources) ([], ObjectPrototype))).
Proof. unfold R_mergeAll, Object_assign. rewrite Object_assign_flat. reflexivity. Qed.

Lemma R_merge_own (l r : JsVal) :
  R_merge l r
  = VObj (fst (fold_left assign_entry (own_enumerable r)
                 (fold_left assign_entry (own_enumerable l)
                    ([], ObjectPrototype)))).
Proof. reflexivity. Qed.

(** Merging, into a mapping with no own [__proto__], a source with distinct
    names: the properties of the source other than [__proto__] are assigned
    to the properties of the mapping. *)
Lemma R_merge_distinct (l r : JsVal) :
  assoc "__proto__" (own_enumerable l) = None ->
  NoDup (map fst (own_enumerable r)) ->
  R_merge l r
  = VObj (fold_left assign_step (without_proto (own_enumerable r))
            (fold_left assign_step (own_enumerable l) [])).
Proof.
  intros Hl Hr. rewrite R_merge_own.
  rewrite (assign_entries_plain _ [] ObjectPrototype Hl).
  rewrite assign_entries_distinct;
    [reflexivity | apply assign_nil_plain, Hl | left; reflexivity | exact Hr].
Qed.

Lemma addDependency_own (m : AbstractBitConfig) (bitId : BitId) :
  assoc "__proto__" (dependency_entries m) = None ->
  NoDup (map fst (own_enumerable (toObject bitId))) ->
  addDependency m bitId
  = with_dependencies m
      (VObj (fold_left assign_step
               (without_proto (own_enumerable (toObject bitId)))
               (fold_left assign_step (dependency_entries m) []))).
Proof.
  intros Hm Hid. unfold addDependency.
  rewrite (R_merge_distinct _ _ Hm Hid). reflexivity.
Qed.

Lemma addDependencies_own (m : AbstractBitConfig) (bitIds : list BitId) :
  assoc "__proto__" (dependency_entries m) = None ->
  addDependencies m bitIds
  = with_dependencies m
      (VObj (fold_left assign_step
               (without_proto (assigned (map toObject bitIds)))
               (fold_left assign_step (dependency_entries m) []))).
Proof.
  intros Hm. unfold addDependencies. rewrite R_mergeAll_own.
  rewrite (R_merge_distinct _ _ Hm)
    by (apply assign_entries_well_formed;
        [apply NoDup_nil; exact I | reflexivity]).
  cbn [own_enumerable].
  rewrite without_proto_assign_entries by reflexivity.
  cbn [fst without_proto List.filter]. rewrite assign_merged. reflexivity.
Qed.



Lemma keys_kept_obj_add_index (P : string -> bool) (kvs : Props) (n : N)
    (k : string) (v : JsVal) :
  P k = false ->
  List.filter P (map fst (obj_add_index kvs n k v)) = List.filter P (map fst kvs).
Proof.
  intros HP. induction kvs as [|[k0 v0] kvs IH]; simpl.
  - rewrite HP. reflexivity.
  - destruct (array_index k0) as [n0|]; [destruct (n0 <? n)%N |]; simpl;
      rewrite ?HP; try reflexivity.
    rewrite IH. reflexivity.
Qed.

Lemma keys_kept_obj_set (P : string -> bool) (kvs : Props) (k : string)
    (v : JsVal) :
  (P k = true -> is_Some (assoc k kvs)) ->
  List.filter P (map fst (obj_set kvs k v)) = List.filter P (map fst kvs).
Proof.
  intros HP. unfold obj_set. destruct (assoc k kvs) as [x|] eqn:Hk.
  - rewrite keys_obj_replace. reflexivity.
  - assert (HPk : P k = false).
    { destruct (P k); [|reflexivity]. destruct (HP eq_refl) as [x Hx].
      discriminate Hx. }
    destruct (array_index k) as [n|].
    + apply keys_kept_obj_add_index. exact HPk.
    + rewrite map_app, List.filter_app. simpl. rewrite HPk. apply app_nil_r.
Qed.

(** The names a run of assignments finds in place keep their order. *)
Lemma keys_kept_assign (P : string -> bool) (new acc : Props) :
  (forall k, P k = true -> is_Some (assoc k acc)) ->
  List.filter P (map fst (fold_left assign_step new acc))
  = List.filter P (map fst acc).
Proof.
  revert acc. induction new as [|[k v] new IH]; intros acc HP; [reflexivity |].
  cbn [fold_left fst snd]. rewrite IH.
  - apply keys_kept_obj_set. apply HP.
  - intros k' Hk'. rewrite assoc_obj_set.
    destruct (String.eqb k k'); [eexists; reflexivity | apply HP, Hk'].
Qed.

Lemma filter_own_keys (kvs : Props) :
  List.filter (fun k => match assoc k kvs with Some _ => true | None => false end)
              (map fst kvs)
  = map fst kvs.
Proof.
  assert (Hall : forall ks,
            (forall k, In k ks -> is_Some (assoc k kvs)) ->
            List.filter
              (fun k => match assoc k kvs with Some _ => true | None => false end)
              ks = ks).
  { induction ks as [|k ks IH]; intros Hin; [reflexivity |]. simpl.
    destruct (Hin k (or_introl eq_refl)) as [x ->].
    rewrite IH; [reflexivity |]. intros k' Hk'. apply Hin. right. exact Hk'. }
  apply Hall. intros k Hin.
  destruct (assoc k kvs) as [x|] eqn:Hk; [eexists; reflexivity |].
  exfalso. apply (assoc_None_not_In _ _ Hk). apply list_elem_of_In. exact Hin.
Qed.

(** X7 -- adding dependencies always leaves in [dependencies] an object whose
    keys are distinct and in property order (array indices ascending, then
    the other names), whatever was there before ([undefined] on a fresh
    model) and whatever the ids convert to; when the field held a plain
    mapping, the result has no own [__proto__] either, and the keys of that
    mapping are all still there, in the order they had among themselves. *)
Theorem dependencies_stay_an_object (m : AbstractBitConfig) (bitIds : list BitId) :
  exists kvs,
    dependencies (addDependencies m bitIds) = VObj kvs /\
    NoDup (map fst kvs) /\
    keys_in_order (map fst kvs) = true /\
    (forall old,
       dependencies m = VObj old -> plain_mapping old = true ->
       assoc "__proto__" kvs = None /\
       List.filter
         (fun k => match assoc k old with Some _ => true | None => false end)
         (map fst kvs)
       = map fst old).
Proof.
  exists (Object_assign [] [dependencies m; R_mergeAll (map toObject bitIds)]).
  split; [reflexivity |].
  assert (Hwf : NoDup (map fst (Object_assign []
                          [dependencies m; R_mergeAll (map toObject bitIds)])) /\
                keys_in_order (map fst (Object_assign []
                          [dependencies m; R_mergeAll (map toObject bitIds)]))
                = true).
  { unfold Object_assign. rewrite Object_assign_flat.
    apply assign_entries_well_formed; [apply NoDup_nil; exact I | reflexivity]. }
  destruct Hwf as [Hnd Hord].
  split; [exact Hnd |]. split; [exact Hord |].
  intros old Hold Hplain.
  apply plain_mapping_parts in Hplain as (Hnodup & Horder & Hproto).
  assert (Hm : assoc "__proto__" (dependency_entries m) = None)
    by (unfold dependency_entries; rewrite Hold; exact Hproto).
  assert (Hown : VObj (Object_assign []
                         [dependencies m; R_mergeAll (map toObject bitIds)])
                 = VObj (fold_left assign_step
                           (without_proto (assigned (map toObject bitIds)))
                           (fold_left assign_step (dependency_entries m) [])))
    by exact (f_equal dependencies (addDependencies_own m bitIds Hm)).
  injection Hown as ->.
  unfold dependency_entries. rewrite Hold. cbn [own_enumerable].
  rewrite (assign_well_formed_nil old Hnodup Horder). split.
  - apply assign_without_proto_plain, Hproto.
  - rewrite keys_kept_assign; [apply filter_own_keys |].
    intros k Hk. destruct (assoc k old); [eexists; reflexivity | discriminate].
Qed.

Lemma dependencies_stay_an_object_witness :
  map fst (dependency_entries
             (addDependencies
                (addDependency dependencies_only_model
                   {| toObject := VObj [("bar", VStr "2.0.0")] |})
                [ {| toObject := VObj [("2048", VStr "0.0.1")] |};
                  {| toObject := VObj [("__proto__", VStr "0.0.2")] |};
                  {| toObject := VObj [("foo@1.0.0", VStr "1.0.1")] |} ]))
  = ["2048"; "foo@1.0.0"; "bar"] /\
  List.filter (fun k => match assoc k [("foo@1.0.0", VStr "1.0.0");
                                       ("bar", VStr "2.0.0")] with
                        | Some _ => true
                        | None => false
                        end)
              ["2048"; "foo@1.0.0"; "bar"]
  = ["foo@1.0.0"; "bar"].
Proof.
  destruct (dependencies_stay_an_object
              (addDependency dependencies_only_model
                 {| toObject := VObj [("bar", VStr "2.0.0")] |})
              [ {| toObject := VObj [("2048", VStr "0.0.1")] |};
                {| toObject := VObj [("__proto__", VStr "0.0.2")] |};
                {| toObject := VObj [("foo@1.0.0", VStr "1.0.1")] |} ])
    as (kvs & Hkvs & _ & _ & Hkeep).
  assert (Hkeys : map fst kvs = ["2048"; "foo@1.0.0"; "bar"]).
  { vm_compute in Hkvs. injection Hkvs as <-. reflexivity. }
  destruct (Hkeep [("foo@1.0.0", VStr "1.0.0"); ("bar", VStr "2.0.0")]
              eq_refl eq_refl) as [_ Hkept].
  rewrite Hkeys in Hkept. split; [|exact Hkept].
  unfold dependency_entries. rewrite Hkvs. exact Hkeys.
Defined.

Lemma assoc_merged (l r : JsVal) (k : string) :
  k <> "__proto__" ->
  NoDup (map fst (own_enumerable l)) -> NoDup (map fst (own_enumerable r)) ->
  assoc k (own_enumerable (R_merge l r))
  = match assoc k (own_enumerable r) with
    | Some v => Some v
    | None => assoc k (own_enumerable l)
    end.
Proof.
  intros Hk Hl Hr. rewrite R_merge_own. cbn [own_enumerable].
  rewrite !(assoc_assign_entries _ _ _ Hk). cbn [fst assoc].
  rewrite (assoc_rev_distinct _ k Hr), (assoc_rev_distinct _ k Hl).
  destruct (assoc k (own_enumerable r)); [reflexivity |].
  destruct (assoc k (own_enumerable l)); reflexivity.
Qed.

(** X8 -- the dependency merge is an override: after [addDependencies], a key
    other than [__proto__] holds the value of the last id that mentions it,
    and otherwise the value it had before; for [addDependency] with an id
    whose object has distinct keys, such a key holds the id's value if the id
    has it and is untouched if not.  An own [__proto__] property of an id is
    not copied: if the mapping had none before, it has none after. *)
Theorem dependencies_last_write_wins (m : AbstractBitConfig) :
  NoDup (map fst (dependency_entries m)) ->
  (forall bitIds k,
     k <> "__proto__" ->
     assoc k (dependency_entries (addDependencies m bitIds))
     = match assoc k (rev (assigned (map toObject bitIds))) with
       | Some v => Some v
       | None => assoc k (dependency_entries m)
       end) /\
  (forall bitId k,
     k <> "__proto__" ->
     NoDup (map fst (own_enumerable (toObject bitId))) ->
     assoc k (dependency_entries (addDependency m bitId))
     = match assoc k (own_enumerable (toObject bitId)) with
       | Some v => Some v
       | None => assoc k (dependency_entries m)
       end) /\
  (assoc "__proto__" (dependency_entries m) = None ->
   (forall bitIds,
      assoc "__proto__" (dependency_entries (addDependencies m bitIds)) = None) /\
   (forall bitId,
      NoDup (map fst (own_enumerable (toObject bitId))) ->
      assoc "__proto__" (dependency_entries (addDependency m bitId)) = None)).
Proof.
  intros Hnodup. split; [|split].
  - intros bitIds k Hk. unfold dependency_entries at 1, addDependencies.
    cbn [dependencies with_dependencies].
    rewrite (assoc_merged _ _ _ Hk Hnodup).
    + rewrite R_mergeAll_own. cbn [own_enumerable].
      rewrite (assoc_assign_entries _ _ _ Hk). cbn [fst assoc].
      destruct (assoc k (rev (assigned (map toObject bitIds)))); reflexivity.
    + rewrite R_mergeAll_own. cbn [own_enumerable].
      apply assign_entries_well_formed; [apply NoDup_nil; exact I | reflexivity].
  - intros bitId k Hk Hid. unfold dependency_entries at 1, addDependency.
    cbn [dependencies with_dependencies].
    apply (assoc_merged _ _ _ Hk Hnodup Hid).
  - intros Hm. split.
    + intros bitIds. rewrite (addDependencies_own m bitIds Hm).
      unfold dependency_entries at 1.
      cbn [dependencies with_dependencies own_enumerable].
      apply assign_without_proto_plain, assign_nil_plain, Hm.
    + intros bitId Hid. rewrite (addDependency_own m bitId Hm Hid).
      unfold dependency_entries at 1.
      cbn [dependencies with_dependencies own_enumerable].
      apply assign_without_proto_plain, assign_nil_plain, Hm.
Qed.

Lemma dependencies_last_write_wins_witness :
  assoc "foo@1.0.0"
    (dependency_entries
       (addDependency dependencies_only_model
          {| toObject := VObj [("foo@1.0.0", VStr "1.0.1")] |}))
  = Some (VStr "1.0.1") /\
  assoc "foo@1.0.0"
    (dependency_entries
       (addDependency dependencies_only_model
          {| toObject := VObj [("bar", VStr "2.0.0")] |}))
  = Some (VStr "1.0.0") /\
  assoc "__proto__"
    (dependency_entries
       (addDependency dependencies_only_model
          {| toObject := VObj [("__proto__", VStr "2.0.0")] |}))
  = None.
Proof.
  assert (Hnodup : NoDup (map fst (dependency_entries dependencies_only_model)))
    by (simpl; apply NoDup_singleton).
  destruct (dependencies_last_write_wins dependencies_only_model Hnodup)
    as (_ & Hone & Hproto).
  split; [|split].
  - rewrite Hone; [reflexivity | discriminate | simpl; apply NoDup_singleton].
  - rewrite Hone; [reflexivity | discriminate | simpl; apply NoDup_singleton].
  - apply (proj2 (Hproto eq_refl)). simpl. apply NoDup_singleton.
Defined.



(** Why X9 needs a mapping with no own [__proto__]: with [__proto__: null]
    among the dependencies the target of each single merge loses its
    prototype, and a [__proto__] of the next id becomes an own property --
    which the one-call merge never gets to see. *)
Example addDependencies_with_own_proto :
  let m := with_dependencies (@constructor bit_constants [])
             (VObj [("__proto__", VNull)]) in
  let id := {| toObject := VObj [("__proto__", VStr "1.0.0")] |} in
  dependencies (addDependencies m [id]) = VObj [] /\
  dependencies (addDependency m id) = VObj [("__proto__", VStr "1.0.0")].
Proof. split; reflexivity. Qed.

Lemma toPlainObject_dependencies_key {K : Constants} (m : AbstractBitConfig) :
  env_typed (_compiler m) = true -> env_typed (_tester m) = true ->
  exists kept,
    toPlainObject m = Normal (VObj kept) /\
    assoc "dependencies" kept
    = if truthy (dependencies m) then Some (dependencies m) else None.
Proof.
  intros Hc Ht.
  destruct (getBackwardCompatibleEnv_total m (VStr COMPILER_ENV_TYPE) Hc Ht)
    as [compiler Hcompiler].
  destruct (getBackwardCompatibleEnv_total m (VStr TESTER_ENV_TYPE) Hc Ht)
    as [tester Htester].
  eexists. split.
  { unfold toPlainObject. rewrite Hcompiler, Htester. reflexivity. }
  pose proof (assoc_filter isPropDefaultOrNull
                (plainCandidate m compiler tester) "dependencies"
                (dependencies m) (plainCandidate_keys m compiler tester))
    as Hkept.
  assert (Hpred : isPropDefaultOrNull (dependencies m) "dependencies"
                  = truthy (dependencies m)).
  { unfold isPropDefaultOrNull. destruct (truthy (dependencies m)); reflexivity. }
  destruct (truthy (dependencies m)) eqn:Htruthy.
  - apply Hkept. split; [reflexivity | exact Hpred].
  - destruct (assoc "dependencies" _) as [v|] eqn:Hv; [|reflexivity].
    exfalso.
    apply (assoc_filter isPropDefaultOrNull _ _ _
             (plainCandidate_keys m compiler tester)) in Hv as [Hcand Hv].
    injection Hcand as <-. rewrite Hpred in Hv. discriminate Hv.
Qed.

(** X10 -- [addDependencies([])] is a no-op on a model whose [dependencies]
    is a plain mapping, but not on a fresh one: there it turns the unset field
    into [{}], and since only falsy values are filtered, the plain object
    gains a [dependencies: {}] entry it did not have.  Nor is it one on a
    mapping with an own [__proto__] property, which the merge does not
    copy. *)
Theorem addDependencies_of_nothing {K : Constants} (m : AbstractBitConfig) :
  (forall kvs,
     dependencies m = VObj kvs -> plain_mapping kvs = true ->
     addDependencies m [] = m) /\
  (dependencies m = VUndefined ->
   env_typed (_compiler m) = true -> env_typed (_tester m) = true ->
   dependencies (addDependencies m []) = VObj [] /\
   exists before after,
     toPlainObject m = Normal (VObj before) /\
     toPlainObject (addDependencies m []) = Normal (VObj after) /\
     assoc "dependencies" before = None /\
     assoc "dependencies" after = Some (VObj [])) /\
  (forall kvs v,
     dependencies m = VObj kvs -> NoDup (map fst kvs) ->
     assoc "__proto__" kvs = Some v ->
     assoc "__proto__" (dependency_entries (addDependencies m [])) = None).
Proof.
  split; [|split].
  - intros kvs Hkvs Hplain.
    apply plain_mapping_parts in Hplain as (Hnodup & Horder & Hproto).
    rewrite (addDependencies_own m [])
      by (unfold dependency_entries; rewrite Hkvs; exact Hproto).
    unfold dependency_entries. rewrite Hkvs.
    cbn [own_enumerable map assigned concat without_proto List.filter fold_left].
    rewrite (assign_well_formed_nil _ Hnodup Horder), <- Hkvs.
    apply with_dependencies_same.
  - intros Hunset Hc Ht.
    assert (Hempty : dependencies (addDependencies m []) = VObj []).
    { simpl. rewrite Hunset. reflexivity. }
    split; [exact Hempty |].
    destruct (toPlainObject_dependencies_key m Hc Ht) as (before & Hb & Hbk).
    destruct (toPlainObject_dependencies_key (addDependencies m []) Hc Ht)
      as (after & Ha & Hak).
    exists before, after.
    rewrite Hunset in Hbk. rewrite Hempty in Hak. auto.
  - intros kvs v Hkvs Hnodup Hproto.
    unfold dependency_entries, addDependencies.
    cbn [dependencies with_dependencies]. rewrite R_merge_own, Hkvs.
    cbn [own_enumerable map R_mergeAll Object_assign fold_left fst].
    rewrite assign_entries_distinct;
      [|reflexivity | left; reflexivity | exact Hnodup].
    apply assign_without_proto_plain. reflexivity.
Qed.

Lemma addDependencies_of_nothing_witness :
  addDependencies dependencies_only_model [] = dependencies_only_model /\
  dependencies (addDependencies (@constructor bit_constants []) []) = VObj [] /\
  @toPlainObject bit_constants (@constructor bit_constants [])
  <> @toPlainObject bit_constants
       (addDependencies (@constructor bit_constants []) []) /\
  dependencies
    (addDependencies
       (with_dependencies dependencies_only_model
          (VObj [("__proto__", VStr "1.0.0"); ("bar", VStr "2.0.0")])) [])
  = VObj [("bar", VStr "2.0.0")].
Proof.
  split; [|split; [|split]].
  - apply (proj1 (@addDependencies_of_nothing bit_constants
                    dependencies_only_model)
             [("foo@1.0.0", VStr "1.0.0")]); reflexivity.
  - apply (proj1 (proj2 (@addDependencies_of_nothing bit_constants
                    (@constructor bit_constants []))) eq_refl eq_refl eq_refl).
  - discriminate.
  - reflexivity.
Defined.

End Merging.

(** ** Staging and writing *)

(** [prepareToWrite] in closed form: the world is the one it was run from. *)
Lemma prepareToWrite_run {K : Constants} (path_join : string -> string -> string)
    (m : AbstractBitConfig) (bitDir : string) (w : World) :
  prepareToWrite path_join m bitDir w =
  (w,
   match toPlainObject m with
   | Throw e => Throw e
   | Normal plain =>
       match (if writeToPackageJson m then
                match fs_files w !! composePackageJsonPath path_join bitDir with
                | None =>
                    Throw (ErrnoError "ENOENT"
                             (composePackageJsonPath path_join bitDir))
                | Some pkg =>
                    match set_prop pkg "bit" plain with
                    | Normal pkg' =>
                        Normal [addJsonFile bitDir
                                  (composePackageJsonPath path_join bitDir) pkg']
                    | Throw e => Throw e
                    end
                end
              else Normal [])
       with
       | Throw e => Throw e
       | Normal staged =>
           Normal (staged ++
                   if writeToBitJson m
                   then [addJsonFile bitDir
                           (composeBitJsonPath path_join bitDir) plain]
                   else [])
       end
   end).
Proof.
  unfold prepareToWrite.
  destruct (toPlainObject m) as [plain|e]; [|apply bind_lift_throw].
  rewrite bind_lift_normal.
  destruct (writeToPackageJson m).
  - unfold bind at 1. unfold bind at 1. unfold fs_readJson.
    destruct (fs_files w !! composePackageJsonPath path_join bitDir)
      as [pkg|]; [|reflexivity].
    unfold bind at 1. unfold lift.
    destruct (set_prop pkg "bit" plain) as [pkg'|e]; [|reflexivity].
    destruct (writeToBitJson m); reflexivity.
  - destruct (writeToBitJson m); reflexivity.
Qed.

(** X11 -- [prepareToWrite] only stages: whatever the model, the directory
    and the files on disk, and whether it succeeds or fails, it leaves the
    world as it found it; and what it stages on success is at most the
    package descriptor followed by the workspace descriptor, each with
    [override] set and [base] the target directory. *)
Theorem prepareToWrite_only_stages {K : Constants}
    (path_join : string -> string -> string) (m : AbstractBitConfig)
    (bitDir : string) (w : World) :
  fst (prepareToWrite path_join m bitDir w) = w /\
  (forall staged,
     snd (prepareToWrite path_join m bitDir w) = Normal staged ->
     map jf_path staged
     = (if writeToPackageJson m
        then [composePackageJsonPath path_join bitDir] else [])
       ++ (if writeToBitJson m
           then [composeBitJsonPath path_join bitDir] else []) /\
     Forall (fun f => jf_override f = true /\ jf_base f = bitDir) staged).
Proof.
  rewrite prepareToWrite_run. split; [reflexivity |].
  intros staged. simpl.
  destruct (toPlainObject m) as [plain|e]; [|discriminate].
  destruct (writeToPackageJson m).
  - destruct (fs_files w !! composePackageJsonPath path_join bitDir)
      as [pkg|]; [|discriminate].
    destruct (set_prop pkg "bit" plain) as [pkg'|e]; [|discriminate].
    destruct (writeToBitJson m); intros [= <-]; simpl; split;
      try reflexivity; repeat constructor.
  - destruct (writeToBitJson m); intros [= <-]; simpl; split;
      try reflexivity; repeat constructor.
Qed.

Lemma prepareToWrite_only_stages_witness :
  let m := with_write_flags legacy_model true true in
  exists staged,
    snd (@prepareToWrite bit_constants join_segments m "/ws" package_json_world)
    = Normal staged /\
    map jf_path staged = ["/ws/package.json"; "/ws/bit.json"].
Proof.
  intros m. eexists. split; [reflexivity |].
  apply (proj2 (@prepareToWrite_only_stages bit_constants join_segments m "/ws"
                  package_json_world)).
  reflexivity.
Defined.

(** X12 -- the staged package descriptor is the one on disk with its [bit]
    property set to the plain object: [bit] reads as the plain object and
    every other property reads as before; a package descriptor whose content
    is [null] or a primitive makes the staging fail with a [TypeError]. *)
Theorem prepareToWrite_package_descriptor {K : Constants}
    (path_join : string -> string -> string) (m : AbstractBitConfig)
    (bitDir : string) (w : World) (plain : JsVal) :
  toPlainObject m = Normal plain ->
  writeToPackageJson m = true ->
  (forall pkg,
     fs_files w !! composePackageJsonPath path_join bitDir = Some (VObj pkg) ->
     exists staged rest,
       prepareToWrite path_join m bitDir w
       = (w, Normal (addJsonFile bitDir
                       (composePackageJsonPath path_join bitDir) (VObj staged)
                     :: rest)) /\
       obj_get staged "bit" = plain /\
       (forall k, k <> "bit" -> obj_get staged k = obj_get pkg k)) /\
  (forall content,
     fs_files w !! composePackageJsonPath path_join bitDir = Some content ->
     match content with VObj _ | VArr _ => False | _ => True end ->
     exists msg,
       prepareToWrite path_join m bitDir w = (w, Throw (TypeError msg))).
Proof.
  intros Hplain Hflag. split.
  - intros pkg Hpkg. rewrite prepareToWrite_run, Hplain, Hflag, Hpkg. simpl.
    eexists. eexists. split; [reflexivity |]. split.
    + unfold obj_get. rewrite assoc_obj_set_eq. reflexivity.
    + intros k Hk. apply obj_get_set_ne. congruence.
  - intros content Hcontent Hshape.
    rewrite prepareToWrite_run, Hplain, Hflag, Hcontent.
    destruct content; try contradiction; eexists; reflexivity.
Qed.

Lemma prepareToWrite_package_descriptor_witness :
  let m := with_write_flags legacy_model true false in
  exists staged rest,
    @prepareToWrite bit_constants join_segments m "/ws" package_json_world
    = (package_json_world,
       Normal (addJsonFile "/ws" "/ws/package.json" (VObj staged) :: rest)) /\
    obj_get staged "name" = VStr "app".
Proof.
  intros m.
  destruct (proj1 (@prepareToWrite_package_descriptor bit_constants
                     join_segments m "/ws" package_json_world
                     (VObj [("env", VObj [("compiler", VStr "babel");
                                          ("tester", VStr "mocha")])])
                     eq_refl eq_refl)
              [("name", VStr "app")] eq_refl)
    as (staged & rest & Hrun & _ & Hkeep).
  exists staged, rest. split; [exact Hrun |].
  rewrite Hkeep by discriminate. reflexivity.
Defined.

(** ** Reading back *)

Lemma loadJsonFileIfExist_run (jsonFilePath : string) (w : World) :
  loadJsonFileIfExist jsonFilePath w
  = (w, Normal (match fs_files w !! jsonFilePath with
                | Some v => v
                | None => VNull
                end)).
Proof.
  unfold loadJsonFileIfExist, loadJsonFileIfExistWith, try_catch, bind,
    fs_readJson.
  destruct (fs_files w !! jsonFilePath); reflexivity.
Qed.

(** X13 -- [loadJsonFileIfExist] recovers from a missing file and from nothing
    else: whatever [readJson] does, a value it resolves to is passed on, a
    rejection with code [ENOENT] becomes [null], and a rejection whose [code]
    is anything else is rejected again with the same error; in every case the
    world is the one [readJson] left.  On the file system it never fails: it
    gives the content of the file, or [null] when there is none. *)
Theorem loadJsonFileIfExist_recovers_missing_only
    (readJson : string -> M JsVal) (jsonFilePath : string) (w w' : World) :
  (forall v,
     readJson jsonFilePath w = (w', Normal v) ->
     loadJsonFileIfExistWith readJson jsonFilePath w = (w', Normal v)) /\
  (forall file,
     readJson jsonFilePath w = (w', Throw (ErrnoError "ENOENT" file)) ->
     loadJsonFileIfExistWith readJson jsonFilePath w = (w', Normal VNull)) /\
  (forall e code,
     readJson jsonFilePath w = (w', Throw e) ->
     error_code e = Normal code ->
     strict_eq_str code "ENOENT" = false ->
     loadJsonFileIfExistWith readJson jsonFilePath w = (w', Throw e)) /\
  loadJsonFileIfExist jsonFilePath w
  = (w, Normal (match fs_files w !! jsonFilePath with
                | Some v => v
                | None => VNull
                end)).
Proof.
  split; [|split; [|split]].
  - intros v Hread.
    unfold loadJsonFileIfExistWith, try_catch, bind. rewrite Hread. reflexivity.
  - intros file Hread.
    unfold loadJsonFileIfExistWith, try_catch, bind. rewrite Hread. reflexivity.
  - intros e code Hread Hcode Hother.
    unfold loadJsonFileIfExistWith, try_catch, bind. rewrite Hread.
    unfold lift. rewrite Hcode, Hother. reflexivity.
  - apply loadJsonFileIfExist_run.
Qed.

Lemma loadJsonFileIfExist_recovers_missing_only_witness :
  loadJsonFileIfExistWith
    (fun p => throw (ErrnoError "EACCES" p)) "/ws/bit.json" empty_world
  = (empty_world, Throw (ErrnoError "EACCES" "/ws/bit.json")) /\
  loadJsonFileIfExistWith
    (fun p => throw (Thrown (VObj [("name", VStr "SyntaxError")])))
    "/ws/bit.json" empty_world
  = (empty_world, Throw (Thrown (VObj [("name", VStr "SyntaxError")]))) /\
  loadJsonFileIfExistWith
    (fun p => throw (ErrnoError "ENOENT" p)) "/ws/bit.json" empty_world
  = (empty_world, Normal VNull) /\
  loadJsonFileIfExistWith fs_readJson "/ws/bit.json" bit_json_world
  = (bit_json_world, Normal (VObj [("env", VObj [])])).
Proof.
  split; [|split; [|split]].
  - apply (proj1 (proj2 (proj2
             (loadJsonFileIfExist_recovers_missing_only
                (fun p => throw (ErrnoError "EACCES" p)) "/ws/bit.json"
                empty_world empty_world)))
             _ (VStr "EACCES")); reflexivity.
  - apply (proj1 (proj2 (proj2
             (loadJsonFileIfExist_recovers_missing_only
                (fun p => throw (Thrown (VObj [("name", VStr "SyntaxError")])))
                "/ws/bit.json" empty_world empty_world)))
             _ VUndefined); reflexivity.
  - apply (proj1 (proj2
             (loadJsonFileIfExist_recovers_missing_only
                (fun p => throw (ErrnoError "ENOENT" p)) "/ws/bit.json"
                empty_world empty_world)) "/ws/bit.json").
    reflexivity.
  - apply (proj1 (loadJsonFileIfExist_recovers_missing_only
                    fs_readJson "/ws/bit.json" bit_json_world bit_json_world)).
    reflexivity.
Defined.

Lemma JsVal_nested_ind (P : JsVal -> Prop) :
  P VUndefined -> P VNull -> (forall b, P (VBool b)) -> (forall n, P (VNum n)) ->
  (forall s, P (VStr s)) ->
  (forall l, Forall P l -> P (VArr l)) ->
  (forall kvs, Forall (fun kv => P (snd kv)) kvs -> P (VObj kvs)) ->
  forall v, P v.
Proof.
  intros Hu Hn Hb Hz Hs Harr Hobj.
  fix IH 1.
  intros [| |b|n|s|l|kvs];
    [exact Hu | exact Hn | apply Hb | apply Hz | apply Hs | |].
  - apply Harr. induction l as [|x l IHl]; constructor; [apply IH | exact IHl].
  - apply Hobj. induction kvs as [|[k x] kvs IHl]; constructor;
      [apply IH | exact IHl].
Qed.

Lemma write_run {K : Constants} (path_join : string -> string -> string)
    (m : AbstractBitConfig) (bitDir : string) (w : World) (staged : list JSONFile) :
  snd (prepareToWrite path_join m bitDir w) = Normal staged ->
  write path_join m bitDir w = Promise_all (map JSONFile_write staged) w.
Proof.
  intros Hstaged. unfold write, bind.
  pose proof (prepareToWrite_run path_join m bitDir w) as Hrun.
  destruct (prepareToWrite path_join m bitDir w) as [w0 r].
  injection Hrun as -> _. simpl in Hstaged. rewrite Hstaged. reflexivity.
Qed.

Lemma JSONFile_write_run (f : JSONFile) (w : World) (json : JsVal) :
  json_of (jf_content f) = Some json ->
  JSONFile_write f w
  = ({| fs_files := <[jf_path f := json]> (fs_files w);
        logged := logged w;
        factory_calls := factory_calls w |}, Normal (VStr (jf_path f))).
Proof. intros Hjson. unfold JSONFile_write. rewrite Hjson. reflexivity. Qed.

Lemma json_of_object (kvs : Props) : exists json, json_of (VObj kvs) = Some json.
Proof. eexists. reflexivity. Qed.

Lemma toPlainObject_object {K : Constants} (m : AbstractBitConfig) (plain : JsVal) :
  toPlainObject m = Normal plain -> exists kvs, plain = VObj kvs.
Proof.
  unfold toPlainObject.
  destruct (getBackwardCompatibleEnv m (VStr COMPILER_ENV_TYPE)); [|discriminate].
  destruct (getBackwardCompatibleEnv m (VStr TESTER_ENV_TYPE)); [|discriminate].
  intros [= <-]. eexists. reflexivity.
Qed.

(** The JSON form of a value is its own JSON form: writing what was read
    writes the same file. *)
Lemma json_of_stable (v json : JsVal) :
  json_of v = Some json -> json_of json = Some json.
Proof.
  revert json.
  induction v as [| |b|n|s|l IHl|kvs IHkvs] using JsVal_nested_ind;
    intros json; try discriminate; try (intros [= <-]; reflexivity).
  - intros [= <-]. cbn [json_of]. do 2 f_equal.
    induction IHl as [|x l Hx _ IH]; [reflexivity |].
    rewrite IH. f_equal.
    destruct (json_of x) as [j|] eqn:Hj; [|reflexivity].
    rewrite (Hx j eq_refl). reflexivity.
  - intros [= <-]. cbn [json_of]. do 2 f_equal.
    induction IHkvs as [|[k x] kvs Hx _ IH]; [reflexivity |].
    cbn [snd] in Hx.
    destruct (json_of x) as [j|] eqn:Hj; [|exact IH].
    rewrite (Hx j eq_refl), IH. reflexivity.
Qed.

(** X14 -- writing and reading back: on a model whose plain object can be
    computed and that writes the workspace descriptor (and, if it also writes
    the package descriptor, finds an object there), [write()] succeeds, the
    last path it returns is the workspace descriptor path, and in the world it
    leaves [loadJsonFileIfExist] at that path gives the JSON form of the plain
    object -- the plain object without the properties whose value is
    [undefined], such as the [compiler] and [tester] of an [env] that has
    none -- and [pathHasBitJson] resolves to [true]; nothing is logged.  The
    JSON form is its own JSON form. *)
Theorem write_then_read_back {K : Constants}
    (path_join : string -> string -> string) (m : AbstractBitConfig)
    (bitDir : string) (w : World) (plain : JsVal) :
  toPlainObject m = Normal plain ->
  writeToBitJson m = true ->
  (writeToPackageJson m = true ->
   exists pkg,
     fs_files w !! composePackageJsonPath path_join bitDir = Some (VObj pkg)) ->
  exists w' paths stored,
    json_of plain = Some stored /\
    json_of stored = Some stored /\
    write path_join m bitDir w = (w', Normal paths) /\
    last paths = Some (VStr (composeBitJsonPath path_join bitDir)) /\
    length paths = (if writeToPackageJson m then 2 else 1) /\
    loadJsonFileIfExist (composeBitJsonPath path_join bitDir) w'
      = (w', Normal stored) /\
    pathHasBitJson path_join bitDir w' = (w', Normal true) /\
    logged w' = logged w.
Proof.
  intros Hplain Hbit Hpkg.
  destruct (toPlainObject_object m plain Hplain) as [kvs Hkvs].
  destruct (json_of_object kvs) as [stored Hstored]. rewrite <- Hkvs in Hstored.
  pose proof (json_of_stable plain stored Hstored) as Hstable.
  destruct (writeToPackageJson m) eqn:Hflag.
  - destruct (Hpkg eq_refl) as [pkg Hfile].
    destruct (json_of_object (obj_set pkg "bit" plain)) as [package Hpackage].
    rewrite (write_run path_join m bitDir w
               [addJsonFile bitDir (composePackageJsonPath path_join bitDir)
                  (VObj (obj_set pkg "bit" plain));
                addJsonFile bitDir (composeBitJsonPath path_join bitDir) plain])
      by (rewrite prepareToWrite_run, Hplain, Hflag, Hfile, Hbit; reflexivity).
    cbn [map Promise_all].
    rewrite (JSONFile_write_run
               (addJsonFile bitDir (composePackageJsonPath path_join bitDir)
                  (VObj (obj_set pkg "bit" plain))) w package Hpackage).
    rewrite (JSONFile_write_run
               (addJsonFile bitDir (composeBitJsonPath path_join bitDir) plain)
               _ stored Hstored).
    eexists. eexists. exists stored.
    split; [exact Hstored |]. split; [exact Hstable |].
    split; [reflexivity |]. split; [reflexivity |]. split; [reflexivity |].
    rewrite loadJsonFileIfExist_run. unfold pathHasBitJson, fs_exists.
    cbn [fs_files logged addJsonFile jf_path]. rewrite lookup_insert_eq.
    split; [reflexivity |]. split; [|reflexivity].
    rewrite bool_decide_eq_true_2; [reflexivity | eexists; reflexivity].
  - rewrite (write_run path_join m bitDir w
               [addJsonFile bitDir (composeBitJsonPath path_join bitDir) plain])
      by (rewrite prepareToWrite_run, Hplain, Hflag, Hbit; reflexivity).
    cbn [map Promise_all].
    rewrite (JSONFile_write_run
               (addJsonFile bitDir (composeBitJsonPath path_join bitDir) plain)
               w stored Hstored).
    eexists. eexists. exists stored.
    split; [exact Hstored |]. split; [exact Hstable |].
    split; [reflexivity |]. split; [reflexivity |]. split; [reflexivity |].
    rewrite loadJsonFileIfExist_run. unfold pathHasBitJson, fs_exists.
    cbn [fs_files logged addJsonFile jf_path]. rewrite lookup_insert_eq.
    split; [reflexivity |]. split; [|reflexivity].
    rewrite bool_decide_eq_true_2; [reflexivity | eexists; reflexivity].
Qed.

Lemma write_then_read_back_witness :
  let m := with_write_flags (@constructor bit_constants []) false true in
  @toPlainObject bit_constants m
  = Normal (VObj [("env", VObj [("compiler", VUndefined);
                                ("tester", VUndefined)])]) /\
  exists w' paths,
    @write bit_constants join_segments m "/ws" empty_world
    = (w', Normal paths) /\
    loadJsonFileIfExist "/ws/bit.json" w' = (w', Normal (VObj [("env", VObj [])])).
Proof.
  intros m. split; [reflexivity |].
  destruct (@write_then_read_back bit_constants join_segments m "/ws"
              empty_world
              (VObj [("env", VObj [("compiler", VUndefined);
                                   ("tester", VUndefined)])])
              eq_refl eq_refl)
    as (w' & paths & stored & Hstored & _ & Hwrite & _ & _ & Hload & _).
  - discriminate.
  - injection Hstored as <-.
    exists w', paths. split; [exact Hwrite | exact Hload].
Defined.

(** X15 -- what [removeIfExist] leaves behind: in the world after it there is
    no file at the workspace descriptor path, [pathHasBitJson] resolves to
    [false], [loadJsonFileIfExist] there gives [null], and exactly one
    message was logged, whether or not there was a file to remove. *)
Theorem removeIfExist_leaves_no_descriptor {K : Constants}
    (path_join : string -> string -> string) (bitPath : string) (w : World) :
  let w' := fst (removeIfExist path_join bitPath w) in
  fs_files w' !! composeBitJsonPath path_join bitPath = None /\
  pathHasBitJson path_join bitPath w' = (w', Normal false) /\
  loadJsonFileIfExist (composeBitJsonPath path_join bitPath) w'
    = (w', Normal VNull) /\
  length (logged w') = S (length (logged w)).
Proof.
  rewrite removeIfExist_run. simpl.
  assert (Hgone : delete (composeBitJsonPath path_join bitPath) (fs_files w)
                  !! composeBitJsonPath path_join bitPath = None)
    by apply lookup_delete_eq.
  split; [exact Hgone |]. split; [|split].
  - unfold pathHasBitJson, fs_exists. simpl. rewrite Hgone.
    rewrite bool_decide_eq_false_2; [reflexivity |].
    intros [v Hv]. discriminate Hv.
  - rewrite loadJsonFileIfExist_run. simpl. rewrite Hgone. reflexivity.
  - rewrite length_app. simpl. lia.
Qed.

(** X16 -- an ill-formed environment entry is fatal for the canonical form
    and for the write: on a model whose compiler accessor gives a one-entry
    set with an [undefined] or [null] entry, [toPlainObject()] throws a
    [TypeError], and [write()] is rejected with it before anything is read or
    written. *)
Theorem toPlainObject_ill_formed_entry {K : Constants}
    (m : AbstractBitConfig) (name : string) (entry : JsVal) :
  get_compiler m = VObj [(name, entry)] ->
  entry = VUndefined \/ entry = VNull ->
  exists msg,
    toPlainObject m = Throw (TypeError msg) /\
    forall path_join bitDir w,
      write path_join m bitDir w = (w, Throw (TypeError msg)).
Proof.
  intros Hset Hnullish.
  assert (Hthrow : exists msg,
            getBackwardCompatibleEnv m (VStr COMPILER_ENV_TYPE)
            = Throw (TypeError msg)).
  { unfold getBackwardCompatibleEnv.
    rewrite getEnvsByType_compiler, Hset. simpl. rewrite obj_get_head. simpl.
    destruct Hnullish as [-> | ->]; eexists; reflexivity. }
  destruct Hthrow as [msg Hthrow]. exists msg.
  assert (Hplain : toPlainObject m = Throw (TypeError msg)).
  { unfold toPlainObject. rewrite Hthrow. reflexivity. }
  split; [exact Hplain |].
  intros path_join bitDir w. unfold write, bind.
  rewrite prepareToWrite_run, Hplain. reflexivity.
Qed.

Lemma toPlainObject_ill_formed_entry_witness :
  let m := with_write_flags
             (@constructor bit_constants [("compiler", VObj [("babel", VNull)])])
             false true in
  exists msg,
    @write bit_constants join_segments m "/ws" empty_world
    = (empty_world, Throw (TypeError msg)).
Proof.
  intros m.
  destruct (@toPlainObject_ill_formed_entry bit_constants m "babel" VNull
              eq_refl (or_intror eq_refl)) as (msg & _ & Hwrite).
  exists msg. apply Hwrite.
Defined.

(** ** Defaults are not written *)

Lemma assoc_In_distinct (k : string) (v : JsVal) (kvs : Props) :
  NoDup (map fst kvs) -> In (k, v) kvs -> assoc k kvs = Some v.
Proof.
  induction kvs as [|[k0 v0] kvs IH]; simpl; intros Hnodup Hin; [contradiction |].
  apply NoDup_cons in Hnodup as [Hk0 Hnodup].
  destruct Hin as [[= -> ->] | Hin].
  - rewrite String.eqb_refl. reflexivity.
  - destruct (String.eqb_spec k0 k) as [->|_]; [|exact (IH Hnodup Hin)].
    exfalso. apply Hk0. apply list_elem_of_In.
    apply (in_map fst) in Hin. exact Hin.
Qed.

Lemma R_equals_each (whole xs : Props) :
  (forall k x, In (k, x) xs -> assoc k whole = Some x) ->
  Forall (fun kv => R_equals (snd kv) (snd kv) = true) xs ->
  (fix each (xs : Props) : bool :=
     match xs with
     | [] => true
     | (k, v) :: xs' =>
         match assoc k whole with
         | Some w => R_equals v w
         | None => false
         end && each xs'
     end) xs = true.
Proof.
  intros Hsub Hall. induction Hall as [|[k x] rest Hx _ IH]; [reflexivity |].
  rewrite (Hsub k x) by (left; reflexivity).
  simpl in Hx. rewrite Hx. simpl.
  apply IH. intros k' x' Hin. apply Hsub. right. exact Hin.
Qed.

(** [R.equals] holds between a value with distinct keys and itself. *)
Lemma R_equals_refl (v : JsVal) : distinct_keys v = true -> R_equals v v = true.
Proof.
  induction v as [| |b|n|s|l IHl|kvs IHkvs] using JsVal_nested_ind;
    intros Hwf; try reflexivity.
  - destruct b; reflexivity.
  - apply Z.eqb_refl.
  - apply String.eqb_refl.
  - simpl in *. induction IHl as [|x l Hx _ IH]; [reflexivity |].
    apply andb_true_iff in Hwf as [Hwx Hwl].
    rewrite (Hx Hwx). simpl. exact (IH Hwl).
  - simpl in Hwf. apply andb_true_iff in Hwf as [Hnodup Hwf].
    apply bool_decide_eq_true in Hnodup.
    simpl. rewrite Nat.eqb_refl. simpl.
    apply R_equals_each.
    + intros k x. apply assoc_In_distinct, Hnodup.
    + clear Hnodup. induction IHkvs as [|[k x] rest Hx _ IH];
        constructor.
      * apply andb_true_iff in Hwf as [Hwx _]. exact (Hx Hwx).
      * apply andb_true_iff in Hwf as [_ Hwrest]. exact (IH Hwrest).
Qed.

Lemma js_or_default (given : JsVal) (default : JsVal) :
  truthy given = false \/ given = default -> js_or given default = default.
Proof.
  unfold js_or. intros [Hfalsy | ->].
  - rewrite Hfalsy. reflexivity.
  - destruct (truthy default); reflexivity.
Qed.

(** X17 -- a model constructed from nothing but defaults serialises to the
    [env] object alone: when the props give no compiler and no tester, and
    give [lang], [bindingPrefix] and [extensions] either not at all (or
    falsy) or equal to the system default, [toPlainObject()] of the
    constructed model is exactly
    [{ env: { compiler: undefined, tester: undefined } }] (the default
    extension set being an object with distinct keys). *)
Theorem defaults_are_not_written {K : Constants} (props : Props) :
  distinct_keys DEFAULT_EXTENSIONS = true ->
  truthy (obj_get props "compiler") = false ->
  truthy (obj_get props "tester") = false ->
  truthy (obj_get props "lang") = false
  \/ obj_get props "lang" = VStr DEFAULT_LANGUAGE ->
  truthy (obj_get props "bindingPrefix") = false
  \/ obj_get props "bindingPrefix" = VStr DEFAULT_BINDINGS_PREFIX ->
  truthy (obj_get props "extensions") = false
  \/ R_equals (obj_get props "extensions") DEFAULT_EXTENSIONS = true ->
  toPlainObject (constructor props)
  = Normal (VObj [("env", VObj [("compiler", VUndefined);
                                ("tester", VUndefined)])]).
Proof.
  intros Hwf Hc Ht Hlang Hprefix Hext.
  assert (Hgc : get_compiler (constructor props) = VUndefined).
  { rewrite get_compiler_unfold. simpl. unfold js_or. rewrite Hc. reflexivity. }
  assert (Hgt : get_tester (constructor props) = VUndefined).
  { rewrite get_tester_unfold. simpl. unfold js_or. rewrite Ht. reflexivity. }
  unfold toPlainObject.
  rewrite (getBackwardCompatibleEnv_absent _ (VStr COMPILER_ENV_TYPE))
    by (rewrite getEnvsByType_compiler; exact Hgc).
  rewrite (getBackwardCompatibleEnv_absent _ (VStr TESTER_ENV_TYPE))
    by (unfold getEnvsByType; rewrite Hgc, Hgt;
        destruct (strict_eq_str _ _); reflexivity).
  simpl. unfold plainCandidate. simpl.
  rewrite (js_or_default _ _ Hlang), (js_or_default _ _ Hprefix).
  unfold filterObject. simpl.
  rewrite isPropDefaultOrNull_default_lang, isPropDefaultOrNull_default_prefix.
  rewrite isPropDefaultOrNull_default_extensions; [reflexivity |].
  unfold js_or. destruct Hext as [Hfalsy | Hsame].
  - rewrite Hfalsy. apply R_equals_refl, Hwf.
  - destruct (truthy (obj_get props "extensions"));
      [exact Hsame | apply R_equals_refl, Hwf].
Qed.

Lemma defaults_are_not_written_witness :
  @toPlainObject bit_constants
     (@constructor bit_constants
        [("lang", VStr "javascript"); ("bindingPrefix", VStr "");
         ("compiler", VNull); ("extensions", VObj [])])
  = Normal (VObj [("env", VObj [("compiler", VUndefined);
                                ("tester", VUndefined)])]).
Proof.
  apply (@defaults_are_not_written bit_constants); try reflexivity.
  - right. reflexivity.
  - left. reflexivity.
  - right. reflexivity.
Defined.

(** X18 -- the plain object declares a compiler exactly when [hasCompiler()]
    says so: on a model whose stored compiler and tester have their declared
    type, the backward compatible compiler is computed without error and it is
    [undefined] if and only if [hasCompiler()] is false. *)
Theorem plain_compiler_iff_hasCompiler {K : Constants} (m : AbstractBitConfig) :
  env_typed (_compiler m) = true ->
  env_typed (_tester m) = true ->
  exists compiler,
    getBackwardCompatibleEnv m (VStr COMPILER_ENV_TYPE) = Normal compiler /\
    (compiler = VUndefined <-> hasCompiler m = false).
Proof.
  intros Hc _.
  rewrite (proj1 (has_env_accessor m)).
  pose proof (getEnvsByType_compiler m) as Henvs.
  rewrite get_compiler_unfold in *.
  destruct (normalized_typed_entries (_compiler m) Hc)
    as [Habsent | (name & fields & rest & Hset)].
  - exists VUndefined. split.
    + apply getBackwardCompatibleEnv_absent. rewrite Henvs. exact Habsent.
    + rewrite Habsent. split; reflexivity.
  - rewrite Hset in *. unfold getBackwardCompatibleEnv. rewrite Henvs.
    destruct rest as [|second rest]; simpl.
    + rewrite obj_get_head. simpl.
      destruct (RA_isNilOrEmpty (obj_get fields "rawConfig"));
        [|eexists; split; [reflexivity | split; discriminate]].
      destruct (RA_isNilOrEmpty (obj_get fields "options"));
        [|eexists; split; [reflexivity | split; discriminate]].
      destruct (RA_isNilOrEmpty (obj_get fields "files"));
        eexists; (split; [reflexivity | split; discriminate]).
    + eexists. split; [reflexivity | split; discriminate].
Qed.

Lemma plain_compiler_iff_hasCompiler_witness :
  exists compiler,
    @getBackwardCompatibleEnv bit_constants
       (@constructor bit_constants [("compiler", VStr "none")])
       (VStr "compiler") = Normal compiler /\
    compiler = VUndefined.
Proof.
  destruct (@plain_compiler_iff_hasCompiler bit_constants
              (@constructor bit_constants [("compiler", VStr "none")])
              eq_refl eq_refl) as (compiler & Hrun & Hiff).
  exists compiler. split; [exact Hrun |]. apply Hiff. reflexivity.
Defined.
